(** * SRIAPI: access keys, canonical XML, signature assembly and the
      reception / authorization client.

    A shallow embedding of the TypeScript sources

    - [src/modules/xml/clave-acceso.service.ts]   (ClaveAccesoService)
    - [src/modules/sri/sri-connector.service.ts]  (SRIConnectorService,
                                                   InvoiceXMLBuilder)
    - [sri-c14n.ts]                               (SRIC14N)
    - [src/modules/signature/sri-xml-signer.ts]   (SRIXmlSigner,
                                                   XAdESSignatureService)

    JavaScript strings are modelled as [string] (the sources only inspect
    ASCII characters), JavaScript numbers as [option Z] where [None] is NaN
    (every number met here is an integer or NaN), exceptions as a [result]
    type, and the remote services and the clock as explicit oracles. *)

From Stdlib Require Import ZArith String Ascii List Lia Bool.
From Stdlib Require Import Permutation Sorted.
Import ListNotations.

Set Warnings "-register-all".

Open Scope string_scope.
Open Scope Z_scope.

(* ================================================================== *)
(** ** The fragment of the JavaScript runtime used by the sources      *)
(* ================================================================== *)

Module JS.

(** A JavaScript number: an integer, or NaN. *)
Definition number := option Z.
Definition NaN : number := None.

Definition num_add (a b : number) : number :=
  match a, b with Some x, Some y => Some (x + y) | _, _ => None end.
Definition num_sub (a b : number) : number :=
  match a, b with Some x, Some y => Some (x - y) | _, _ => None end.
Definition num_mul (a b : number) : number :=
  match a, b with Some x, Some y => Some (x * y) | _, _ => None end.
(** [a % b]: the remainder has the sign of the dividend; [x % 0] is NaN. *)
Definition num_rem (a b : number) : number :=
  match a, b with
  | Some x, Some y => if y =? 0 then None else Some (Z.rem x y)
  | _, _ => None
  end.

(** Exceptions. *)
Inductive result (E A : Type) : Type :=
| Ok (a : A)
| Throw (e : E).
Arguments Ok {E A} a.
Arguments Throw {E A} e.

Definition isDigit (c : ascii) : bool :=
  ((48 <=? nat_of_ascii c) && (nat_of_ascii c <=? 57))%nat.

Definition digitValue (c : ascii) : Z := Z.of_nat (nat_of_ascii c) - 48.

Definition digitChar (d : Z) : ascii := ascii_of_nat (Z.to_nat (d + 48)).

Fixpoint allDigits (s : string) : bool :=
  match s with
  | EmptyString => true
  | String c r => isDigit c && allDigits r
  end.

(** [/^[0-9]{n}$/.test(s)] *)
Definition testDigitsN (n : nat) (s : string) : bool :=
  (String.length s =? n)%nat && allDigits s.

(** [/^\d+$/.test(s)] *)
Definition testDigitsPlus (s : string) : bool :=
  negb (String.length s =? 0)%nat && allDigits s.

(** [s[i]]: a one-character string, or [undefined]. *)
Definition charAt (s : string) (i : nat) : option string :=
  match String.get i s with
  | Some c => Some (String c EmptyString)
  | None => None
  end.

(** [s.substring(a, b)] for [a <= b]. *)
Definition substring (a b : nat) (s : string) : string :=
  String.substring a (b - a) s.

Fixpoint repeatChar (c : ascii) (n : nat) : string :=
  match n with
  | O => EmptyString
  | S k => String c (repeatChar c k)
  end.

(** [s.padStart(n, '0')] *)
Definition padStart (n : nat) (s : string) : string :=
  repeatChar "0"%char (n - String.length s) ++ s.

(** White space skipped by [parseInt] (the ASCII part of it). *)
Definition isWhite (c : ascii) : bool :=
  let n := nat_of_ascii c in
  ((n =? 32) || ((9 <=? n) && (n <=? 13)))%nat.

Fixpoint trimStart (s : string) : string :=
  match s with
  | String c r => if isWhite c then trimStart r else s
  | EmptyString => EmptyString
  end.

(** The value of [c] as a digit in [radix] (10 or 16). *)
Definition digitIn (radix : Z) (c : ascii) : option Z :=
  let n := Z.of_nat (nat_of_ascii c) in
  if (48 <=? n) && (n <=? 57) then Some (n - 48)
  else if (radix =? 16) && (97 <=? n) && (n <=? 102) then Some (n - 87)
  else if (radix =? 16) && (65 <=? n) && (n <=? 70) then Some (n - 55)
  else None.

(** The longest prefix of digits, as a number; NaN when it is empty. *)
Fixpoint takeDigits (radix : Z) (s : string) (acc : number) : number :=
  match s with
  | EmptyString => acc
  | String c r =>
      match digitIn radix c with
      | Some d =>
          takeDigits radix r
            (Some (match acc with Some a => a * radix + d | None => d end))
      | None => acc
      end
  end.

(** [parseInt(s)] with no radix argument: leading white space, an optional
    sign, an optional [0x] prefix, then the longest prefix of digits. *)
Definition parseInt (s : string) : number :=
  let s1 := trimStart s in
  let '(neg, s2) :=
    match s1 with
    | String "-"%char r => (true, r)
    | String "+"%char r => (false, r)
    | _ => (false, s1)
    end in
  let '(radix, s3) :=
    match s2 with
    | String "0"%char (String x r) =>
        if (Ascii.eqb x "x" || Ascii.eqb x "X")%bool then (16, r) else (10, s2)
    | _ => (10, s2)
    end in
  match takeDigits radix s3 None with
  | Some v => Some (if neg : bool then - v else v)
  | None => None
  end.

(** [parseInt(x)] where [x] may be [undefined]. *)
Definition parseIntOpt (x : option string) : number :=
  match x with
  | Some s => parseInt s
  | None => None
  end.

(** Decimal digits of a non-negative integer, most significant first. *)
Fixpoint digitsFuel (fuel : nat) (n : Z) (acc : string) : string :=
  match fuel with
  | O => acc
  | S f =>
      let acc' := String (digitChar (n mod 10)) acc in
      if n <? 10 then acc' else digitsFuel f (n / 10) acc'
  end.

(** [n.toString()] for an integer [n]. *)
Definition Z_toString (n : Z) : string :=
  if n <? 0
  then String "-"%char
         (digitsFuel (S (Z.to_nat (Z.log2 (- n)))) (- n) EmptyString)
  else digitsFuel (S (Z.to_nat (Z.log2 n))) n EmptyString.

(** [x.toString()] for a number. *)
Definition toString (x : number) : string :=
  match x with
  | Some n => Z_toString n
  | None => "NaN"
  end.

(** [s.startsWith(p)] *)
Fixpoint startsWith (p s : string) : bool :=
  match p, s with
  | EmptyString, _ => true
  | String a p', String b s' => Ascii.eqb a b && startsWith p' s'
  | String _ _, EmptyString => false
  end.

(** [s.includes(p)] *)
Fixpoint includes (p s : string) : bool :=
  startsWith p s ||
  match s with
  | EmptyString => false
  | String _ s' => includes p s'
  end.

(** [s.indexOf(c)] for a one-character needle; [None] is -1. *)
Fixpoint indexOfChar (c : ascii) (s : string) : option nat :=
  match s with
  | EmptyString => None
  | String a r =>
      if Ascii.eqb a c then Some O else option_map S (indexOfChar c r)
  end.

(** [s.split(c)] for a one-character separator. *)
Fixpoint splitChar (c : ascii) (s : string) : list string :=
  match s with
  | EmptyString => [EmptyString]
  | String a r =>
      if Ascii.eqb a c then EmptyString :: splitChar c r
      else match splitChar c r with
           | p :: ps => String a p :: ps
           | [] => [String a EmptyString]
           end
  end.

(** [s.replace(/c/g, r)] for a one-character pattern. *)
Fixpoint replaceAll (c : ascii) (r : string) (s : string) : string :=
  match s with
  | EmptyString => EmptyString
  | String a t =>
      if Ascii.eqb a c then r ++ replaceAll c r t
      else String a (replaceAll c r t)
  end.

(** [s.toLowerCase()] on ASCII letters. *)
Definition lowerChar (c : ascii) : ascii :=
  let n := nat_of_ascii c in
  if ((65 <=? n) && (n <=? 90))%nat then ascii_of_nat (n + 32) else c.

Fixpoint toLowerCase (s : string) : string :=
  match s with
  | EmptyString => EmptyString
  | String c r => String (lowerChar c) (toLowerCase r)
  end.

End JS.

Import JS.

(* ================================================================== *)
(** ** [Date] objects, as far as [formatFecha] looks at them           *)
(* ================================================================== *)

Module JSDate.

(** A [Date] is either the invalid date (its time value is NaN) or a local
    calendar day; the three fields are what [getFullYear()], [getMonth()]
    (0-based) and [getDate()] return. *)
Inductive Date : Type :=
| Invalid
| Local (fullYear month date : Z).

(** Day number (days since 1970-01-01) of a proleptic Gregorian day, with
    [m] in 1..12. *)
Definition daysFromCivil (y m d : Z) : Z :=
  let y' := if m <=? 2 then y - 1 else y in
  let era := y' / 400 in
  let yoe := y' - era * 400 in
  let mp := (m + 9) mod 12 in
  let doy := (153 * mp + 2) / 5 + d - 1 in
  let doe := yoe * 365 + yoe / 4 - yoe / 100 + doy in
  era * 146097 + doe - 719468.

Definition civilFromDays (z : Z) : Z * Z * Z :=
  let z := z + 719468 in
  let era := z / 146097 in
  let doe := z - era * 146097 in
  let yoe := (doe - doe / 1460 + doe / 36524 - doe / 146096) / 365 in
  let y := yoe + era * 400 in
  let doy := doe - (365 * yoe + yoe / 4 - yoe / 100) in
  let mp := (5 * doy + 2) / 153 in
  let d := doy - (153 * mp + 2) / 5 + 1 in
  let m := if mp <? 10 then mp + 3 else mp - 9 in
  (if m <=? 2 then y + 1 else y, m, d).

(** ECMAScript MakeDay: months and days outside their range carry over. *)
Definition MakeDay (year month date : Z) : Z :=
  let ym := year + month / 12 in
  let mn := month mod 12 in
  daysFromCivil ym (mn + 1) 1 + date - 1.

(** TimeClip: a time value is at most 8.64e15 ms, that is 1e8 days, from
    the epoch (the offset of the local time zone is left out). *)
Definition maxDay : Z := 100000000.

(** [new Date(year, month, date)]: years 0..99 mean 1900..1999. *)
Definition newDate (year month date : number) : Date :=
  match year, month, date with
  | Some y, Some m, Some d =>
      let yr := if (0 <=? y) && (y <=? 99) then 1900 + y else y in
      let day := MakeDay yr m d in
      if (- maxDay <=? day) && (day <=? maxDay)
      then let '(cy, cm, cd) := civilFromDays day in Local cy (cm - 1) cd
      else Invalid
  | _, _, _ => Invalid
  end.

End JSDate.

Import JSDate.

(* ================================================================== *)
(** ** clave-acceso.service.ts                                         *)
(* ================================================================== *)

Module ClaveAcceso.

(** [fechaEmision: Date | string] *)
Inductive Fecha : Type :=
| FechaDate (d : Date)
| FechaString (s : string).

Record ClaveAccesoParams : Type := {
  fechaEmision : Fecha;
  tipoComprobante : string;
  ruc : string;
  ambiente : number;
  establecimiento : string;
  puntoEmision : string;
  secuencial : string;
  tipoEmision : number
}.

(** One constructor per message pushed by [validateParams]. *)
Inductive Violation : Type :=
| RucFormato
| AmbienteFormato
| TipoEmisionFormato
| EstablecimientoFormato
| PuntoEmisionFormato
| SecuencialRango
| TipoComprobanteDesconocido.

(** One constructor per [throw] of the service. *)
Inductive Error : Type :=
| ParametrosInvalidos (errors : list Violation)
| FechaInvalida
| ClaveBaseLongitud (len : nat)
| ClaveBaseNoNumerica
| Modulo11Longitud (len : nat)
| PatronXSD (clave : string).

Definition multiplicadores : list Z :=
  [7; 6; 5; 4; 3; 2; 7; 6; 5; 4; 3; 2; 7; 6; 5; 4; 3; 2; 7; 6; 5; 4; 3; 2;
   7; 6; 5; 4; 3; 2; 7; 6; 5; 4; 3; 2; 7; 6; 5; 4; 3; 2; 7; 6; 5; 4; 3; 2].

(** The body of [for (let i = 0; i < 48; i++)], run [n] more times from
    index [i]. *)
Fixpoint sumaLoop (clave : string) (n i : nat) (suma : number) : number :=
  match n with
  | O => suma
  | S n' =>
      let digito := parseIntOpt (charAt clave i) in
      let multiplicador := nth_error multiplicadores i in
      sumaLoop clave n' (S i) (num_add suma (num_mul digito multiplicador))
  end.

(** [suma % 11] after the loop. *)
Definition residuoDe (clave : string) : number :=
  num_rem (sumaLoop clave 48 0 (Some 0)) (Some 11).

(** [11 - residuo], with 11 mapped to 0 and 10 to 1. *)
Definition digitoDe (residuo : number) : number :=
  let digitoVerificador := num_sub (Some 11) residuo in
  match digitoVerificador with
  | Some 11 => Some 0
  | Some 10 => Some 1
  | d => d
  end.

Definition calcularModulo11 (clave : string) : result Error string :=
  if negb (String.length clave =? 48)%nat
  then Throw (Modulo11Longitud (String.length clave))
  else Ok (toString (digitoDe (residuoDe clave))).

Definition validate (claveAcceso : string) : bool :=
  if negb (String.length claveAcceso =? 49)%nat then false
  else if negb (testDigitsPlus claveAcceso) then false
  else
    let claveSinDigito := substring 0 48 claveAcceso in
    let digitoVerificador := substring 48 49 claveAcceso in
    match calcularModulo11 claveSinDigito with
    | Ok digitoCalculado => String.eqb digitoVerificador digitoCalculado
    | Throw _ => false
    end.

(** [/^[0-9]{10}001$/.test(s)] *)
Definition testRuc (s : string) : bool :=
  (String.length s =? 13)%nat &&
  allDigits (substring 0 10 s) &&
  String.eqb (substring 10 13 s) "001".

(** [/^[1-2]{1}$/.test(s)] and [/^[12]{1}$/.test(s)] *)
Definition test12 (s : string) : bool :=
  String.eqb s "1" || String.eqb s "2".

Definition tiposValidos : list string := ["01"; "03"; "04"; "05"; "06"; "07"].

Definition arrayIncludes (l : list string) (s : string) : bool :=
  existsb (String.eqb s) l.

Definition validateParams (params : ClaveAccesoParams) : list Violation :=
  (if negb (testRuc (ruc params)) then [RucFormato] else []) ++
  (if negb (test12 (toString (ambiente params)))
   then [AmbienteFormato] else []) ++
  (if negb (test12 (toString (tipoEmision params)))
   then [TipoEmisionFormato] else []) ++
  (if negb (testDigitsN 3 (establecimiento params))
   then [EstablecimientoFormato] else []) ++
  (if negb (testDigitsN 3 (puntoEmision params))
   then [PuntoEmisionFormato] else []) ++
  (match parseInt (secuencial params) with
   | None => [SecuencialRango]
   | Some secuencialNum =>
       if (secuencialNum <=? 0) || (999999999 <? secuencialNum)
       then [SecuencialRango] else []
   end) ++
  (if negb (arrayIncludes tiposValidos (tipoComprobante params))
   then [TipoComprobanteDesconocido] else []).

Section WithHost.

(** [new Date(s)] on a string: the host's date parser. *)
Variable Date_parse : string -> Date.

(** The first half of [formatFecha]: the [Date] called [d] there. *)
Definition fechaDate (fecha : Fecha) : Date :=
  match fecha with
  | FechaString s =>
      if includes "/" s then
        let parts := splitChar "/" s in
        if (List.length parts =? 3)%nat then
          let dia := parseIntOpt (nth_error parts 0) in
          let mes := num_sub (parseIntOpt (nth_error parts 1)) (Some 1) in
          let anio := parseIntOpt (nth_error parts 2) in
          newDate anio mes dia
        else Date_parse s
      else Date_parse s
  | FechaDate d => d
  end.

Definition formatFecha (fecha : Fecha) : result Error string :=
  match fechaDate fecha with
  | Invalid => Throw FechaInvalida
  | Local fullYear month date =>
      let dia := padStart 2 (Z_toString date) in
      let mes := padStart 2 (Z_toString (month + 1)) in
      let anio := Z_toString fullYear in
      Ok (dia ++ mes ++ anio)
  end.

(** [generateCodigoNumerico], where [r] is the value of
    [Math.floor(Math.random() * (max - min + 1))], between 0 and 89999999. *)
Definition generateCodigoNumerico (r : Z) : string :=
  let min := 10000000 in
  let codigo := r + min in
  Z_toString codigo.

(** [generate(params)]; [r] is the random draw of
    [generateCodigoNumerico]. *)
Definition generate (params : ClaveAccesoParams) (r : Z)
  : result Error string :=
  match validateParams params with
  | (_ :: _) as errors => Throw (ParametrosInvalidos errors)
  | [] =>
      match formatFecha (fechaEmision params) with
      | Throw e => Throw e
      | Ok fecha =>
          let codigoNumerico := generateCodigoNumerico r in
          let fechaPart := fecha in
          let tipoComprobantePart := padStart 2 (tipoComprobante params) in
          let rucPart := padStart 13 (ruc params) in
          let ambientePart := toString (ambiente params) in
          let establecimientoPart := padStart 3 (establecimiento params) in
          let puntoEmisionPart := padStart 3 (puntoEmision params) in
          let secuencialPart := padStart 9 (secuencial params) in
          let codigoNumericoPart := codigoNumerico in
          let tipoEmisionPart := toString (tipoEmision params) in
          let claveSinDigito :=
            fechaPart ++ tipoComprobantePart ++ rucPart ++ ambientePart ++
            establecimientoPart ++ puntoEmisionPart ++ secuencialPart ++
            codigoNumericoPart ++ tipoEmisionPart in
          if negb (String.length claveSinDigito =? 48)%nat
          then Throw (ClaveBaseLongitud (String.length claveSinDigito))
          else if negb (testDigitsN 48 claveSinDigito)
          then Throw ClaveBaseNoNumerica
          else
            match calcularModulo11 claveSinDigito with
            | Throw e => Throw e
            | Ok digitoVerificador =>
                let claveAcceso := claveSinDigito ++ digitoVerificador in
                if negb (testDigitsN 49 claveAcceso)
                then Throw (PatronXSD claveAcceso)
                else Ok claveAcceso
            end
      end
  end.

End WithHost.

(** [key] with the character at position [i] replaced by [d]. *)
Fixpoint setChar (i : nat) (d : ascii) (key : string) : string :=
  match key, i with
  | EmptyString, _ => EmptyString
  | String _ r, O => String d r
  | String c r, S j => String c (setChar j d r)
  end.


(** [validateSecuencial]: [/^\d{1,9}$/.test(secuencial)] *)
Definition validateSecuencial (secuencial : string) : bool :=
  (1 <=? String.length secuencial)%nat &&
  (String.length secuencial <=? 9)%nat && allDigits secuencial.

Inductive SecuencialError : Type := SecuencialInvalido.

(** [formatSecuencial] on a string. *)
Definition formatSecuencial (secuencial : string)
  : result SecuencialError string :=
  if negb (validateSecuencial secuencial) then Throw SecuencialInvalido
  else Ok (padStart 9 secuencial).

(** [parseFecha]: the date of the first eight characters of a key. *)
Definition parseFecha (fechaStr : string) : Date :=
  let dia := parseInt (substring 0 2 fechaStr) in
  let mes := num_sub (parseInt (substring 2 4 fechaStr)) (Some 1) in
  let anio := parseInt (substring 4 8 fechaStr) in
  newDate anio mes dia.

(** The object returned by [parse]. *)
Record ClaveParsed : Type := {
  parsed_fechaEmision : Date;
  parsed_tipoComprobante : string;
  parsed_ruc : string;
  parsed_ambiente : number;
  parsed_establecimiento : string;
  parsed_puntoEmision : string;
  parsed_secuencial : string;
  parsed_codigoNumerico : string;
  parsed_tipoEmision : number;
  parsed_digitoVerificador : string
}.

Inductive ParseError : Type := ClaveInvalida.

Definition parse (claveAcceso : string) : result ParseError ClaveParsed :=
  if negb (validate claveAcceso) then Throw ClaveInvalida
  else
    Ok {| parsed_fechaEmision := parseFecha (substring 0 8 claveAcceso);
          parsed_tipoComprobante := substring 8 10 claveAcceso;
          parsed_ruc := substring 10 23 claveAcceso;
          parsed_ambiente := parseInt (substring 23 24 claveAcceso);
          parsed_establecimiento := substring 24 27 claveAcceso;
          parsed_puntoEmision := substring 27 30 claveAcceso;
          parsed_secuencial := substring 30 39 claveAcceso;
          parsed_codigoNumerico := substring 39 47 claveAcceso;
          parsed_tipoEmision := parseInt (substring 47 48 claveAcceso);
          parsed_digitoVerificador := substring 48 49 claveAcceso |}.

(** *** Auxiliary definitions for the properties of the service *)

(** The digit read at index [k], 0 outside the string. *)
Definition dv (s : string) (k : nat) : Z :=
  match String.get k s with
  | Some c => digitValue c
  | None => 0
  end.

(** [sum_{k = i}^{i + n - 1} dv s k * multiplicadores[k]] *)
Fixpoint sigma (s : string) (n i : nat) : Z :=
  match n with
  | O => 0
  | S n' => dv s i * nth i multiplicadores 0 + sigma s n' (S i)
  end.

(** [10 ^ k] *)
Fixpoint pow10 (k : nat) : Z :=
  match k with
  | O => 1
  | S k' => 10 * pow10 k'
  end.

(** The 48 characters that [generate] puts before the check digit. *)
Definition claveSinDigito (p : ClaveAccesoParams) (fecha : string) (r : Z)
  : string :=
  fecha ++ padStart 2 (tipoComprobante p) ++ padStart 13 (ruc p) ++
  toString (ambiente p) ++ padStart 3 (establecimiento p) ++
  padStart 3 (puntoEmision p) ++ padStart 9 (secuencial p) ++
  generateCodigoNumerico r ++ toString (tipoEmision p).

(** The parameters of the known vector of the test suite. *)
Definition vector_params (fecha : Fecha) : ClaveAccesoParams :=
  {| fechaEmision := fecha;
     tipoComprobante := "01";
     ruc := "1792146739001";
     ambiente := Some 1;
     establecimiento := "001";
     puntoEmision := "001";
     secuencial := "000000001";
     tipoEmision := Some 1 |}.

(** The parameters of the vector with the sequence number "1a". *)
Definition params_secuencial_1a : ClaveAccesoParams :=
  {| fechaEmision := FechaDate (Local 2024 0 15);
     tipoComprobante := "01";
     ruc := "1792146739001";
     ambiente := Some 1;
     establecimiento := "001";
     puntoEmision := "001";
     secuencial := "1a";
     tipoEmision := Some 1 |}.



(** A key that validates: weighted sum 12, residue 1, check digit 1. *)
Definition clave_residuo_1 : string :=
  "0000060000000000000000000000000000000000000000001".

End ClaveAcceso.

(* ================================================================== *)
(** ** InvoiceXMLBuilder (sri-connector.service.ts)                    *)
(* ================================================================== *)

Module InvoiceXMLBuilder.

Definition factores : list Z := [2; 3; 4; 5; 6; 7].

(** The body of [for (let i = numero.length - 1; i >= 0; i--)], with [n]
    iterations left: the next index is [n - 1]. *)
Fixpoint sumaLoop (numero : string) (n : nat) (suma : number)
    (factorIndex : nat) : number :=
  match n with
  | O => suma
  | S i =>
      let suma' :=
        num_add suma
          (num_mul (parseIntOpt (charAt numero i))
                   (nth_error factores factorIndex)) in
      sumaLoop numero i suma' ((factorIndex + 1) mod List.length factores)%nat
  end.

Definition calcularModulo11 (numero : string) : string :=
  let suma := sumaLoop numero (String.length numero) (Some 0) 0%nat in
  let modulo := num_rem suma (Some 11) in
  let digitoVerificador := num_sub (Some 11) modulo in
  match digitoVerificador with
  | Some 11 => "0"
  | Some 10 => "1"
  | d => toString d
  end.

(** [generateCodigoNumerico], where [r] is the value of
    [Math.floor(10000000 + Math.random() * 90000000)]. *)
Definition generateCodigoNumerico (r : Z) : string := Z_toString r.

(** The parameters of [generateClaveAcceso]. *)
Record ClaveParams : Type := {
  fechaEmision : string;
  tipoComprobante : string;
  ruc : string;
  ambiente : string;
  serie : string;
  numeroComprobante : string;
  codigoNumerico : option string;
  tipoEmision : string
}.

(** [generateClaveAcceso(params)]; [r] is the random draw, used when no
    (or an empty) [codigoNumerico] is given. *)
Definition generateClaveAcceso (params : ClaveParams) (r : Z) : string :=
  let codigo :=
    match codigoNumerico params with
    | Some c => if String.eqb c EmptyString then generateCodigoNumerico r
                else c
    | None => generateCodigoNumerico r
    end in
  let clave48 :=
    fechaEmision params ++ tipoComprobante params ++ ruc params ++
    ambiente params ++ serie params ++ numeroComprobante params ++
    codigo ++ tipoEmision params in
  let digitoVerificador := calcularModulo11 clave48 in
  clave48 ++ digitoVerificador.

(** The 48 characters that [generateClaveAcceso] puts before the check
    digit. *)
Definition clave48 (params : ClaveParams) (r : Z) : string :=
  fechaEmision params ++ tipoComprobante params ++ ruc params ++
  ambiente params ++ serie params ++ numeroComprobante params ++
  (match codigoNumerico params with
   | Some c => if String.eqb c EmptyString then generateCodigoNumerico r
               else c
   | None => generateCodigoNumerico r
   end) ++ tipoEmision params.

(** The parameters of the known vector, in the builder's form. *)
Definition vector_clave : ClaveParams :=
  {| fechaEmision := "15012024";
     tipoComprobante := "01";
     ruc := "1792146739001";
     ambiente := "1";
     serie := "001001";
     numeroComprobante := "000000001";
     codigoNumerico := Some "12345678";
     tipoEmision := "1" |}.

End InvoiceXMLBuilder.

(* ================================================================== *)
(** ** sri-c14n.ts: the canonicalization used by the signers           *)
(* ================================================================== *)

Module SRIC14N.

(** An attribute of the DOM: [attr.name] and [attr.value]. *)
Record Attr : Type := { name : string; value : string }.

(** The DOM nodes the canonicalizer tells apart: elements (with their
    qualified tag name, the namespace URI and local name the parser gave
    them, their attributes in document order and their children), text
    nodes, and every other node type (comments, CDATA sections, processing
    instructions). *)
Inductive Node : Type :=
| Element (tagName : string) (namespaceURI : string) (localName : string)
          (attributes : list Attr) (childNodes : list Node)
| Text (nodeValue : string)
| Other.

(** A JavaScript object used as a map from strings to strings: its own
    properties in creation order. *)
Definition Obj : Type := list (string * string).

(** [obj[key] = v]: an existing property keeps its place. *)
Fixpoint objSet (key v : string) (obj : Obj) : Obj :=
  match obj with
  | [] => [(key, v)]
  | (k, x) :: rest =>
      if String.eqb k key then (k, v) :: rest
      else (k, x) :: objSet key v rest
  end.

(** Property keys that are array indices ("0", "7", "42", ...) are
    enumerated first, in ascending numeric order. *)
Definition isArrayIndex (k : string) : bool :=
  testDigitsPlus k &&
  (String.eqb k "0" || negb (startsWith "0" k)) &&
  match parseInt k with
  | Some n => n <? 4294967295
  | None => false
  end.

Definition indexOf (k : string) : Z :=
  match parseInt k with Some n => n | None => 0 end.

Fixpoint insertIndex (e : string * string) (l : Obj) : Obj :=
  match l with
  | [] => [e]
  | x :: r =>
      if indexOf (fst e) <? indexOf (fst x) then e :: l
      else x :: insertIndex e r
  end.

(** [Object.entries(obj)] *)
Definition entries (obj : Obj) : list (string * string) :=
  fold_right insertIndex [] (filter (fun e => isArrayIndex (fst e)) obj) ++
  filter (fun e => negb (isArrayIndex (fst e))) obj.

(** [{ ...a, ...b }] *)
Definition spread (a b : Obj) : Obj :=
  fold_left (fun acc e => objSet (fst e) (snd e) acc)
            (entries a ++ entries b) [].

(** [canonicalizeText]: the text with [&], [<], [>] and CR replaced. *)
Definition canonicalizeText (nodeValue : string) : string :=
  replaceAll "013"%char "&#xD;"
    (replaceAll ">"%char "&gt;"
       (replaceAll "<"%char "&lt;"
          (replaceAll "&"%char "&amp;" nodeValue))).

Definition escapeAttributeValue (value : string) : string :=
  replaceAll "013"%char "&#xD;"
    (replaceAll "010"%char "&#xA;"
       (replaceAll "009"%char "&#x9;"
          (replaceAll "034"%char "&quot;"
             (replaceAll "<"%char "&lt;"
                (replaceAll "&"%char "&amp;" value))))).

(** [extractNamespaces]: the loop over [element.attributes]. *)
Fixpoint extractNamespacesLoop (attrs : list Attr) (namespaces : Obj) : Obj :=
  match attrs with
  | [] => namespaces
  | attr :: rest =>
      if startsWith "xmlns" (name attr) then
        let prefix :=
          if String.eqb (name attr) "xmlns" then EmptyString
          else String.substring 6 (String.length (name attr)) (name attr) in
        extractNamespacesLoop rest (objSet prefix (value attr) namespaces)
      else extractNamespacesLoop rest namespaces
  end.

Definition extractNamespaces (attrs : list Attr) : Obj :=
  extractNamespacesLoop attrs [].

(** [splitQName]: the part before the first colon is taken as the
    namespace; without a colon the namespace is empty. *)
Definition splitQName (qname : string) : string * string :=
  match indexOfChar ":"%char qname with
  | None => (EmptyString, qname)
  | Some colonIndex =>
      (String.substring 0 colonIndex qname,
       String.substring (colonIndex + 1) (String.length qname) qname)
  end.

(** The double quote, as a string. *)
Definition quot : string := String "034"%char EmptyString.

Section WithCollation.

(** [a.localeCompare(b)]: negative, zero or positive; the order is the one
    of the host's collation. *)
Variable localeCompare : string -> string -> Z.

(** [array.sort(cmp)]: a stable sort; an element goes after every element
    that does not compare greater than it. *)
Fixpoint sortInsert {A : Type} (cmp : A -> A -> Z) (x : A) (l : list A)
  : list A :=
  match l with
  | [] => [x]
  | y :: r => if cmp x y <? 0 then x :: l else y :: sortInsert cmp x r
  end.

Definition sort {A : Type} (cmp : A -> A -> Z) (l : list A) : list A :=
  fold_left (fun acc x => sortInsert cmp x acc) l [].

Definition attributeCompare (a b : string) : Z :=
  let aParts := splitQName a in
  let bParts := splitQName b in
  if negb (String.eqb (fst aParts) (fst bParts)) then
    if String.eqb (fst aParts) EmptyString then -1
    else if String.eqb (fst bParts) EmptyString then 1
    else localeCompare (fst aParts) (fst bParts)
  else localeCompare (snd aParts) (snd bParts).

Definition getSortedAttributes (attrs : list Attr) : list Attr :=
  sort (fun a b => attributeCompare (name a) (name b))
       (filter (fun attr => negb (startsWith "xmlns" (name attr))) attrs).

Definition getSortedNamespaces (namespaces : Obj) : list Attr :=
  sort (fun a b => localeCompare (name a) (name b))
       (map (fun e =>
               {| name := if String.eqb (fst e) EmptyString then "xmlns"
                          else "xmlns:" ++ fst e;
                  value := snd e |})
            (entries namespaces)).

(** [` ${name}="${escapeAttributeValue(value)}"`] *)
Definition emitAttr (a : Attr) : string :=
  " " ++ name a ++ "=" ++ quot ++ escapeAttributeValue (value a) ++ quot.

Fixpoint concatStrings (l : list string) : string :=
  match l with
  | [] => EmptyString
  | s :: r => s ++ concatStrings r
  end.

(** [canonicalizeNode], with [canonicalizeElement] and [canonicalizeText]
    in place. *)
Fixpoint canonicalizeNode (node : Node) (inheritedNamespaces : Obj)
  : string :=
  match node with
  | Element tagName _ _ attrs children =>
      let localNamespaces := extractNamespaces attrs in
      let mergedNamespaces := spread inheritedNamespaces localNamespaces in
      let attributes := getSortedAttributes attrs in
      let sortedNamespaces := getSortedNamespaces localNamespaces in
      "<" ++ tagName ++
      concatStrings (map emitAttr sortedNamespaces) ++
      concatStrings
        (map emitAttr
           (filter (fun attr => negb (startsWith "xmlns" (name attr)))
                   attributes)) ++
      ">" ++
      (fix children_loop (l : list Node) : string :=
         match l with
         | [] => EmptyString
         | child :: rest =>
             canonicalizeNode child mergedNamespaces ++ children_loop rest
         end) children ++
      "</" ++ tagName ++ ">"
  | Text nodeValue => canonicalizeText nodeValue
  | Other => EmptyString
  end.

(** [canonicalize], on the document element that the parser returned. *)
Definition canonicalize (documentElement : Node) : string :=
  canonicalizeNode documentElement [].

(** What [doc.getElementsByTagNameNS(xmldsig, 'Signature')] selects. *)
Definition isSignature (node : Node) : bool :=
  match node with
  | Element _ namespaceURI localName _ _ =>
      String.eqb namespaceURI "http://www.w3.org/2000/09/xmldsig#" &&
      String.eqb localName "Signature"
  | _ => false
  end.

(** The tree once every selected element below [node] has been removed
    from its parent. *)
Fixpoint removeSignatures (node : Node) : Node :=
  match node with
  | Element tagName namespaceURI localName attrs children =>
      Element tagName namespaceURI localName attrs
        ((fix remove_loop (l : list Node) : list Node :=
            match l with
            | [] => []
            | child :: rest =>
                if isSignature child then remove_loop rest
                else removeSignatures child :: remove_loop rest
            end) children)
  | other => other
  end.

(** Reading [nodeType] of a null document element. *)
Inductive C14NError : Type := TypeErrorNullNode.

(** [canonicalizeForEnvelopedDigest], on the parsed document: when the
    document element itself is selected it is removed from the document and
    the canonicalizer is handed [null]. *)
Definition canonicalizeForEnvelopedDigest (documentElement : Node)
  : result C14NError string :=
  if isSignature documentElement then Throw TypeErrorNullNode
  else Ok (canonicalizeNode (removeSignatures documentElement) []).

End WithCollation.

(** *** Auxiliary definitions for the properties of the canonicalizer *)

(** The reference that replaces a character in an attribute value. *)
Definition attrReference (c : ascii) : string :=
  if Ascii.eqb c "&" then "&amp;"
  else if Ascii.eqb c "<" then "&lt;"
  else if Ascii.eqb c "034" then "&quot;"
  else if Ascii.eqb c "009" then "&#x9;"
  else if Ascii.eqb c "010" then "&#xA;"
  else if Ascii.eqb c "013" then "&#xD;"
  else String c EmptyString.

(** The reference that replaces a character in a text node. *)
Definition textReference (c : ascii) : string :=
  if Ascii.eqb c "&" then "&amp;"
  else if Ascii.eqb c "<" then "&lt;"
  else if Ascii.eqb c ">" then "&gt;"
  else if Ascii.eqb c "013" then "&#xD;"
  else String c EmptyString.

Fixpoint flatMap (f : ascii -> string) (s : string) : string :=
  match s with
  | EmptyString => EmptyString
  | String c r => f c ++ flatMap f r
  end.

(** Whether an element that [canonicalizeForEnvelopedDigest] removes
    occurs in the tree. *)
Fixpoint hasSignature (node : Node) : bool :=
  isSignature node ||
  match node with
  | Element _ _ _ _ children =>
      (fix any (l : list Node) : bool :=
         match l with
         | [] => false
         | child :: rest => hasSignature child || any rest
         end) children
  | _ => false
  end.

(** A sample collation: comparison by character codes. *)
Definition codeCompare (a b : string) : Z :=
  match String.compare a b with
  | Lt => -1
  | Eq => 0
  | Gt => 1
  end.

(** Two documents that differ only in the order of two attributes. *)
Definition doc_xmlns_first : Node :=
  Element "r" "A" "r"
    [ {| name := "xmlns"; value := "A" |};
      {| name := "xmlnsa"; value := "B" |} ] [].

Definition doc_xmlns_last : Node :=
  Element "r" "A" "r"
    [ {| name := "xmlnsa"; value := "B" |};
      {| name := "xmlns"; value := "A" |} ] [].

End SRIC14N.

(* ================================================================== *)
(** ** Bytes, hexadecimal and base64 (jsbn, Buffer, forge.util)        *)
(* ================================================================== *)

Module Encoding.

(** The newline, as a string. *)
Definition nl : string := String "010"%char EmptyString.

Definition base64Alphabet : string :=
  "ABCDEFGHIJKLMNOPQRSTUVWXYZabcdefghijklmnopqrstuvwxyz0123456789+/".

Definition sextet (n : Z) : ascii :=
  match String.get (Z.to_nat n) base64Alphabet with
  | Some c => c
  | None => "="%char
  end.

(** Base64 with padding, of a sequence of bytes (0..255). *)
Fixpoint encode64 (bytes : list Z) : string :=
  match bytes with
  | [] => EmptyString
  | [a] =>
      String (sextet (Z.shiftr a 2))
        (String (sextet (Z.shiftl (Z.land a 3) 4)) "==")
  | [a; b] =>
      String (sextet (Z.shiftr a 2))
        (String (sextet (Z.lor (Z.shiftl (Z.land a 3) 4) (Z.shiftr b 4)))
           (String (sextet (Z.shiftl (Z.land b 15) 2)) "="))
  | a :: b :: c :: rest =>
      String (sextet (Z.shiftr a 2))
        (String (sextet (Z.lor (Z.shiftl (Z.land a 3) 4) (Z.shiftr b 4)))
           (String (sextet (Z.lor (Z.shiftl (Z.land b 15) 2) (Z.shiftr c 6)))
              (String (sextet (Z.land c 63)) (encode64 rest))))
  end.

Fixpoint bytesFuel (fuel : nat) (n : Z) (acc : list Z) : list Z :=
  match fuel with
  | O => acc
  | S f => if n <=? 0 then acc else bytesFuel f (n / 256) (n mod 256 :: acc)
  end.

(** The minimal big-endian unsigned-integer encoding of [n >= 0]: no
    leading zero byte; the empty sequence for 0. *)
Definition bytesBE (n : Z) : list Z :=
  bytesFuel (S (Z.to_nat (Z.log2 n))) n [].

(** jsbn [BigInteger.prototype.toByteArray] for [n >= 0]: big-endian two's
    complement, so a zero byte comes first when the top bit of the magnitude
    is set; the bytes are signed (-128..127). *)
Definition toByteArray (n : Z) : list Z :=
  let magnitude := bytesBE n in
  let padded :=
    match magnitude with
    | [] => [0]
    | b :: _ => if 128 <=? b then 0 :: magnitude else magnitude
    end in
  map (fun b => if 128 <=? b then b - 256 else b) padded.

Definition hexDigit (d : Z) : ascii :=
  if d <? 10 then ascii_of_nat (Z.to_nat (d + 48))
  else ascii_of_nat (Z.to_nat (d + 87)).

Fixpoint hexFuel (fuel : nat) (n : Z) (acc : string) : string :=
  match fuel with
  | O => acc
  | S f =>
      let acc' := String (hexDigit (n mod 16)) acc in
      if n <? 16 then acc' else hexFuel f (n / 16) acc'
  end.

(** [n.toString(16)] for [n >= 0]: lower case, no leading zero. *)
Definition toHex (n : Z) : string :=
  hexFuel (S (Z.to_nat (Z.log2 n))) n EmptyString.

(** [Buffer.from(s, 'hex')]: pairs of hexadecimal digits; decoding stops at
    the first pair that is not one, and a last single digit is dropped. *)
Fixpoint bufferFromHex (s : string) : list Z :=
  match s with
  | String a (String b r) =>
      match digitIn 16 a, digitIn 16 b with
      | Some x, Some y => (x * 16 + y) :: bufferFromHex r
      | _, _ => []
      end
  | _ => []
  end.

Definition isLineTerminator (c : ascii) : bool :=
  (Ascii.eqb c "010" || Ascii.eqb c "013")%bool.

(** [s.match(/.{1,k}/g)]: the runs of at most [k] characters other than
    line terminators; [cur] is the run being read. *)
Fixpoint matchRuns (k : nat) (s : string) (cur : string) : list string :=
  match s with
  | EmptyString => if String.eqb cur EmptyString then [] else [cur]
  | String c r =>
      if isLineTerminator c then
        if String.eqb cur EmptyString then matchRuns k r EmptyString
        else cur :: matchRuns k r EmptyString
      else
        let cur' := cur ++ String c EmptyString in
        if (String.length cur' =? k)%nat
        then cur' :: matchRuns k r EmptyString
        else matchRuns k r cur'
  end.

(** [lines.join('\n')] *)
Fixpoint joinLines (lines : list string) : string :=
  match lines with
  | [] => EmptyString
  | [l] => l
  | l :: rest => l ++ nl ++ joinLines rest
  end.

(** [(s.match(/.{1,k}/g) || [s]).join('\n')] *)
Definition wrapLines (k : nat) (s : string) : string :=
  match matchRuns k s EmptyString with
  | [] => joinLines [s]
  | runs => joinLines runs
  end.

(** The padding of [createRSAKeyValue]: a zero in front of a hexadecimal
    text of odd length. *)
Definition evenHex (h : string) : string :=
  if negb (Nat.eqb (Nat.modulo (String.length h) 2) 0) then "0" ++ h else h.

(** The number that a big-endian sequence of bytes stands for. *)
Definition valueBE (bytes : list Z) : Z :=
  fold_left (fun a b => a * 256 + b) bytes 0.

End Encoding.

Import Encoding.

(* ================================================================== *)
(** ** sri-xml-signer.ts: SRIXmlSigner (string templates)              *)
(* ================================================================== *)

Module SRIXmlSigner.

Import SRIC14N.

(** [createKeyInfoContent]; [certBase64] is what the certificate loader
    returns and [publicKey_n] the modulus of the certificate's RSA key, when
    the certificate has one. *)
Definition createKeyInfoContent (keyInfoId : string) (certBase64 : string)
    (publicKey_n : option Z) : string :=
  let modulus :=
    match publicKey_n with
    | Some n =>
        let modulusBytes := toByteArray n in
        let binaryString := map (fun b => Z.land b 255) modulusBytes in
        encode64 binaryString
    | None => EmptyString
    end in
  let formattedCert := wrapLines 76 certBase64 in
  let formattedModulus := wrapLines 76 modulus in
  "<ds:KeyInfo Id=" ++ quot ++ keyInfoId ++ quot ++ " xmlns:ds=" ++ quot ++
    "http://www.w3.org/2000/09/xmldsig#" ++ quot ++ ">" ++ nl ++
  "      <ds:X509Data>" ++ nl ++
  "        <ds:X509Certificate>" ++ nl ++
  formattedCert ++ nl ++
  "</ds:X509Certificate>" ++ nl ++
  "      </ds:X509Data>" ++ nl ++
  "      <ds:KeyValue>" ++ nl ++
  "        <ds:RSAKeyValue>" ++ nl ++
  "          <ds:Modulus>" ++ nl ++
  formattedModulus ++ nl ++
  "</ds:Modulus>" ++ nl ++
  "          <ds:Exponent>AQAB</ds:Exponent>" ++ nl ++
  "        </ds:RSAKeyValue>" ++ nl ++
  "      </ds:KeyValue>" ++ nl ++
  "    </ds:KeyInfo>".

Definition createSignedInfo
    (signedInfoId signedPropertiesRefId signedPropsId signedPropsDigest
     keyInfoId keyInfoDigest referenceId documentDigest : string) : string :=
  "<ds:SignedInfo Id=" ++ quot ++ signedInfoId ++ quot ++ " xmlns:ds=" ++
    quot ++ "http://www.w3.org/2000/09/xmldsig#" ++ quot ++ ">" ++ nl ++
  "      <ds:CanonicalizationMethod Algorithm=" ++ quot ++
    "http://www.w3.org/TR/2001/REC-xml-c14n-20010315" ++ quot ++ ">" ++ nl ++
  "      </ds:CanonicalizationMethod>" ++ nl ++
  "      <ds:SignatureMethod Algorithm=" ++ quot ++
    "http://www.w3.org/2000/09/xmldsig#rsa-sha1" ++ quot ++ ">" ++ nl ++
  "      </ds:SignatureMethod>" ++ nl ++
  "      <ds:Reference Id=" ++ quot ++ signedPropertiesRefId ++ quot ++
    " Type=" ++ quot ++ "http://uri.etsi.org/01903#SignedProperties" ++
    quot ++ " URI=" ++ quot ++ "#" ++ signedPropsId ++ quot ++ ">" ++ nl ++
  "        <ds:Transforms>" ++ nl ++
  "          <ds:Transform Algorithm=" ++ quot ++
    "http://www.w3.org/TR/2001/REC-xml-c14n-20010315" ++ quot ++ "/>" ++
    nl ++
  "        </ds:Transforms>" ++ nl ++
  "        <ds:DigestMethod Algorithm=" ++ quot ++
    "http://www.w3.org/2000/09/xmldsig#sha1" ++ quot ++ ">" ++ nl ++
  "        </ds:DigestMethod>" ++ nl ++
  "        <ds:DigestValue>" ++ signedPropsDigest ++ "</ds:DigestValue>" ++
    nl ++
  "      </ds:Reference>" ++ nl ++
  "      <ds:Reference URI=" ++ quot ++ "#" ++ keyInfoId ++ quot ++ ">" ++
    nl ++
  "        <ds:DigestMethod Algorithm=" ++ quot ++
    "http://www.w3.org/2000/09/xmldsig#sha1" ++ quot ++ ">" ++ nl ++
  "        </ds:DigestMethod>" ++ nl ++
  "        <ds:DigestValue>" ++ keyInfoDigest ++ "</ds:DigestValue>" ++ nl ++
  "      </ds:Reference>" ++ nl ++
  "      <ds:Reference Id=" ++ quot ++ referenceId ++ quot ++ " URI=" ++
    quot ++ "#comprobante" ++ quot ++ ">" ++ nl ++
  "        <ds:Transforms>" ++ nl ++
  "          <ds:Transform Algorithm=" ++ quot ++
    "http://www.w3.org/2000/09/xmldsig#enveloped-signature" ++ quot ++ ">" ++
    nl ++
  "          </ds:Transform>" ++ nl ++
  "        </ds:Transforms>" ++ nl ++
  "        <ds:DigestMethod Algorithm=" ++ quot ++
    "http://www.w3.org/2000/09/xmldsig#sha1" ++ quot ++ ">" ++ nl ++
  "        </ds:DigestMethod>" ++ nl ++
  "        <ds:DigestValue>" ++ documentDigest ++ "</ds:DigestValue>" ++
    nl ++
  "      </ds:Reference>" ++ nl ++
  "    </ds:SignedInfo>".

(** The markup that [createKeyInfoContent] writes before and after the
    [ds:Modulus] element. *)
Definition keyInfoBeforeModulus (keyInfoId formattedCert : string) : string :=
  "<ds:KeyInfo Id=" ++ quot ++ keyInfoId ++ quot ++ " xmlns:ds=" ++ quot ++
    "http://www.w3.org/2000/09/xmldsig#" ++ quot ++ ">" ++ nl ++
  "      <ds:X509Data>" ++ nl ++
  "        <ds:X509Certificate>" ++ nl ++
  formattedCert ++ nl ++
  "</ds:X509Certificate>" ++ nl ++
  "      </ds:X509Data>" ++ nl ++
  "      <ds:KeyValue>" ++ nl ++
  "        <ds:RSAKeyValue>" ++ nl ++
  "          ".

Definition keyInfoAfterModulus : string :=
  nl ++
  "          <ds:Exponent>AQAB</ds:Exponent>" ++ nl ++
  "        </ds:RSAKeyValue>" ++ nl ++
  "      </ds:KeyValue>" ++ nl ++
  "    </ds:KeyInfo>".

End SRIXmlSigner.

(* ================================================================== *)
(** ** sri-xml-signer.ts: XAdESSignatureService (DOM construction)     *)
(* ================================================================== *)

Module XAdESSignatureService.

Import SRIC14N.

Definition ns_ds : string := "http://www.w3.org/2000/09/xmldsig#".

Definition CANONICALIZATION_METHOD : string :=
  "http://www.w3.org/TR/2001/REC-xml-c14n-20010315".
Definition SIGNATURE_METHOD_RSA_SHA1 : string :=
  "http://www.w3.org/2000/09/xmldsig#rsa-sha1".
Definition SIGNATURE_METHOD_RSA_SHA256 : string :=
  "http://www.w3.org/2001/04/xmldsig-more#rsa-sha256".
Definition DIGEST_METHOD_SHA1 : string :=
  "http://www.w3.org/2000/09/xmldsig#sha1".
Definition ENVELOPED_SIGNATURE : string :=
  "http://www.w3.org/2000/09/xmldsig#enveloped-signature".
Definition TYPE_SIGNED_PROPERTIES : string :=
  "http://uri.etsi.org/01903#SignedProperties".

(** [element.setAttribute(n, v)]: an attribute that exists keeps its
    place. *)
Fixpoint setAttribute (n v : string) (attrs : list Attr) : list Attr :=
  match attrs with
  | [] => [ {| name := n; value := v |} ]
  | a :: rest =>
      if String.eqb (name a) n then {| name := n; value := v |} :: rest
      else a :: setAttribute n v rest
  end.

(** [element.textContent = s] on an element without children. *)
Definition textContent (s : string) : list Node :=
  if String.eqb s EmptyString then [] else [Text s].

(** [doc.createElementNS(ns_ds, 'ds:' + local)] with its attributes and
    children once the builder is done with it. *)
Definition ds (local : string) (attrs : list Attr) (children : list Node)
  : Node :=
  Element ("ds:" ++ local) ns_ds local attrs children.

Definition createReference (id uri digestValue : string) (isEnveloped : bool)
    (type : option string) : Node :=
  let attrs := setAttribute "URI" uri (setAttribute "Id" id []) in
  let attrs :=
    match type with
    | Some t => if String.eqb t EmptyString then attrs
                else setAttribute "Type" t attrs
    | None => attrs
    end in
  let '(needsTransforms, transformsChildren) :=
    if isEnveloped then
      (true,
       [ds "Transform" (setAttribute "Algorithm" ENVELOPED_SIGNATURE []) []])
    else
      match type with
      | Some t =>
          if String.eqb t TYPE_SIGNED_PROPERTIES then
            (true,
             [ds "Transform"
                 (setAttribute "Algorithm" CANONICALIZATION_METHOD []) []])
          else (false, [])
      | None => (false, [])
      end in
  let transforms := ds "Transforms" [] transformsChildren in
  let digestMethod :=
    ds "DigestMethod" (setAttribute "Algorithm" DIGEST_METHOD_SHA1 []) [] in
  let digestValueElement := ds "DigestValue" [] (textContent digestValue) in
  ds "Reference" attrs
     ((if needsTransforms : bool then [transforms] else []) ++
      [digestMethod; digestValueElement])%list.

(** [createSignedInfo]; [uuid] is the value of [generateUUID()] and
    [envelopedDigest] the value of [calculateEnvelopedDigest(xmlContent,
    ...)]; [algorithm] is [options?.algorithm]. *)
Definition createSignedInfo (referenceId signedPropsId signedPropsDigest
    keyInfoId keyInfoDigest : string) (algorithm : option string)
    (uuid envelopedDigest : string) : Node :=
  let canonMethod :=
    ds "CanonicalizationMethod"
       (setAttribute "Algorithm" CANONICALIZATION_METHOD []) [] in
  let algorithmUri :=
    match algorithm with
    | Some a => if String.eqb a "SHA256" then SIGNATURE_METHOD_RSA_SHA256
                else SIGNATURE_METHOD_RSA_SHA1
    | None => SIGNATURE_METHOD_RSA_SHA1
    end in
  let signMethod :=
    ds "SignatureMethod" (setAttribute "Algorithm" algorithmUri []) [] in
  let propsReference :=
    createReference (referenceId ++ "-SignedProperties")
      ("#" ++ signedPropsId) signedPropsDigest false
      (Some TYPE_SIGNED_PROPERTIES) in
  let certReference :=
    createReference ("Certificate-" ++ uuid) ("#" ++ keyInfoId)
      keyInfoDigest false None in
  let docReference :=
    createReference referenceId EmptyString envelopedDigest true None in
  ds "SignedInfo" []
     [canonMethod; signMethod; propsReference; certReference; docReference].

(** [createRSAKeyValue], on the public key ([n], [e]) that
    [forge.pki.certificateFromPem] reads from the certificate. *)
Definition createRSAKeyValue (n e : Z) : Node :=
  let modulusBytes := toHex n in
  let modulusBuffer := bufferFromHex modulusBytes in
  let modulus := encode64 modulusBuffer in
  let exponentHex := toHex e in
  let exponentHex :=
    if negb (Nat.eqb (Nat.modulo (String.length exponentHex) 2) 0)
    then "0" ++ exponentHex else exponentHex in
  let exponentBuffer := bufferFromHex exponentHex in
  let exponent := encode64 exponentBuffer in
  let formattedModulus :=
    match matchRuns 64 modulus EmptyString with
    | [] => modulus
    | runs =>
        let joined := joinLines runs in
        if String.eqb joined EmptyString then modulus else joined
    end in
  let modulusElement :=
    ds "Modulus" [] (textContent (nl ++ formattedModulus ++ nl)) in
  let exponentElement := ds "Exponent" [] (textContent exponent) in
  ds "RSAKeyValue" [] [modulusElement; exponentElement].

End XAdESSignatureService.

(* ================================================================== *)
(** ** Reading the signature structures back                           *)
(* ================================================================== *)

Module SignatureView.

Import SRIC14N.

(** The tags of a piece of markup: for each [<...>], what stands between
    the angle brackets. [inTag] holds the part of the current tag read so
    far. *)
Fixpoint scanTags (s : string) (inTag : option string) : list string :=
  match s with
  | EmptyString => []
  | String c r =>
      match inTag with
      | None =>
          if Ascii.eqb c "<" then scanTags r (Some EmptyString)
          else scanTags r None
      | Some acc =>
          if Ascii.eqb c ">" then acc :: scanTags r None
          else scanTags r (Some (acc ++ String c EmptyString))
      end
  end.

Definition tags (s : string) : list string := scanTags s None.

(** The tags of each [ds:Reference] element, from its start tag to its end
    tag. *)
Fixpoint referenceBlocks (ts : list string) (cur : option (list string))
  : list (list string) :=
  match ts with
  | [] => []
  | t :: r =>
      match cur with
      | None =>
          if startsWith "ds:Reference" t then referenceBlocks r (Some [t])
          else referenceBlocks r None
      | Some b =>
          if String.eqb t "/ds:Reference"
          then (b ++ [t])%list :: referenceBlocks r None
          else referenceBlocks r (Some (b ++ [t])%list)
      end
  end.

Definition sha1Uri : string := "http://www.w3.org/2000/09/xmldsig#sha1".

(** A string without angle brackets. *)
Fixpoint noMarkup (s : string) : bool :=
  match s with
  | EmptyString => true
  | String c r => negb (Ascii.eqb c "<") && negb (Ascii.eqb c ">") && noMarkup r
  end.

Definition tagNameOf (n : Node) : string :=
  match n with
  | Element t _ _ _ _ => t
  | _ => EmptyString
  end.

Definition childrenOf (n : Node) : list Node :=
  match n with
  | Element _ _ _ _ c => c
  | _ => []
  end.

Definition attributesOf (n : Node) : list Attr :=
  match n with
  | Element _ _ _ a _ => a
  | _ => []
  end.

(** [element.getAttribute(n)] *)
Definition getAttribute (n : string) (node : Node) : option string :=
  option_map value
    (find (fun a => String.eqb (name a) n) (attributesOf node)).

(** The child elements with a given tag name. *)
Definition childElements (tag : string) (node : Node) : list Node :=
  filter (fun c => String.eqb (tagNameOf c) tag) (childrenOf node).

(** The transforms of a Reference: [None] without a [ds:Transforms] child,
    else the algorithms of its [ds:Transform] children. *)
Definition transformsOf (reference : Node) : option (list (option string)) :=
  match childElements "ds:Transforms" reference with
  | [] => None
  | t :: _ =>
      Some (map (getAttribute "Algorithm") (childElements "ds:Transform" t))
  end.

(** The text of an element: its text children, concatenated. *)
Definition textOf (node : Node) : string :=
  concatStrings
    (map (fun c => match c with Text s => s | _ => EmptyString end)
         (childrenOf node)).

(** The digest carried by a Reference: the text of its [ds:DigestValue]. *)
Definition digestOf (reference : Node) : list string :=
  map textOf (childElements "ds:DigestValue" reference).

End SignatureView.

(* ================================================================== *)
(** ** sri-connector.service.ts: SRIConnectorService                   *)
(* ================================================================== *)

Module SRIConnector.

(** [x || d] for a string that may be missing. *)
Definition orDefault (x : option string) (d : string) : string :=
  match x with
  | Some s => if String.eqb s EmptyString then d else s
  | None => d
  end.

(** A message as the service sends it (any field may be missing) and as the
    connector returns it. *)
Record RawMensaje : Type := {
  raw_identificador : option string;
  raw_mensaje : option string;
  raw_informacionAdicional : option string;
  raw_tipo : option string
}.

Record Mensaje : Type := {
  identificador : string;
  mensaje : string;
  informacionAdicional : string;
  tipo : string
}.

(** The loop over [mensajesList]: entries that are null are skipped. *)
Definition processMensajes (l : list (option RawMensaje)) : list Mensaje :=
  flat_map
    (fun m =>
       match m with
       | Some msg =>
           [ {| identificador := orDefault (raw_identificador msg) EmptyString;
                mensaje := orDefault (raw_mensaje msg) EmptyString;
                informacionAdicional :=
                  orDefault (raw_informacionAdicional msg) EmptyString;
                tipo := orDefault (raw_tipo msg) "ERROR" |} ]
       | None => []
       end) l.

Record RawComprobante : Type := {
  raw_claveAcceso : option string;
  raw_comp_mensajes : list (option RawMensaje)
}.

Record ComprobanteRespuesta : Type := {
  claveAcceso : option string;
  comp_mensajes : list Mensaje
}.

(** The body of [RespuestaRecepcionComprobante]; a single [comprobante] is a
    list of one. *)
Record RawRecepcion : Type := {
  raw_estado : option string;
  raw_comprobantes : list (option RawComprobante)
}.

Record ValidarComprobanteResponse : Type := {
  estado : string;
  comprobantes : list ComprobanteRespuesta
}.

Definition processValidarResponse (respuesta : RawRecepcion)
  : ValidarComprobanteResponse :=
  {| estado := orDefault (raw_estado respuesta) "DEVUELTA";
     comprobantes :=
       flat_map
         (fun c =>
            match c with
            | Some comp =>
                [ {| claveAcceso := raw_claveAcceso comp;
                     comp_mensajes :=
                       processMensajes (raw_comp_mensajes comp) |} ]
            | None => []
            end) (raw_comprobantes respuesta) |}.

Record RawAutorizacion : Type := {
  raw_aut_estado : option string;
  raw_numeroAutorizacion : option string;
  raw_fechaAutorizacion : option string;
  raw_ambiente : option string;
  raw_comprobante : option string;
  raw_aut_mensajes : list (option RawMensaje)
}.


Record RawAutorizacionResponse : Type := {
  raw_claveAccesoConsultada : option string;
  raw_numeroComprobantes : option string;
  raw_autorizaciones : list (option RawAutorizacion)
}.



(** What the connector reads of an error: [error.message],
    [error.response.status] and [error.code] (in its string form). *)
Record JSError : Type := {
  message : option string;
  response_status : option Z;
  code : option string
}.

Definition isRetryableError (error : JSError) : bool :=
  let message :=
    match message error with
    | Some m => toLowerCase m
    | None => EmptyString
    end in
  if includes "timeout" message || includes "econnrefused" message ||
     includes "enotfound" message || includes "econnreset" message ||
     includes "socket hang up" message || includes "network" message
  then true
  else if match response_status error with
          | Some status => existsb (Z.eqb status) [500; 502; 503; 504]
          | None => false
          end
  then true
  else match code error with
       | Some c =>
           if String.eqb c EmptyString then false
           else match parseInt c with
                | Some n => existsb (Z.eqb n) [26; 50; 65; 70]
                | None => false
                end
       | None => false
       end.

(** The outcome of one SOAP call. *)
Inductive SoapOutcome (A : Type) : Type :=
| SoapFault (e : JSError)
| SoapResult (raw : A).
Arguments SoapFault {A} e.
Arguments SoapResult {A} raw.

(** What the connector throws. *)
Inductive Thrown : Type :=
| Rethrown (e : JSError)
| FalloValidar (maxRetries : Z) (lastError : option JSError)
| FalloAutorizacion (maxRetries : Z) (lastError : option JSError)
| TimeoutEspera (clave : string).

Inductive Event : Type :=
| CallRecepcion (xmlBase64 : string)
| CallAutorizacion (clave : string)
| Sleep (ms : Z).

(** The state of the world around the connector: how many calls each
    service has received, how many random numbers and clock readings have
    been drawn, and what happened so far (latest event first). *)
Record World : Type := {
  recepcionCalls : nat;
  autorizacionCalls : nat;
  draws : nat;
  reads : nat;
  trace : list Event
}.

Definition initialWorld : World :=
  {| recepcionCalls := 0; autorizacionCalls := 0; draws := 0; reads := 0;
     trace := [] |}.

Section WithServices.

(** [this.config.maxRetries] *)
Variable maxRetries : Z.
(** The outcome of the k-th call of each remote operation. *)
Variable recepcion : nat -> SoapOutcome RawRecepcion.
Variable autorizacion : nat -> SoapOutcome RawAutorizacionResponse.
(** The k-th value of [Math.random() * 1000], in whole milliseconds. *)
Variable jitter : nat -> Z.
(** The k-th reading of [Date.now()]. *)
Variable clock : nat -> Z.
(** [Buffer.from(xml, 'utf-8').toString('base64')] *)
Variable base64 : string -> string.

Definition sleep (ms : Z) (w : World) : World :=
  {| recepcionCalls := recepcionCalls w;
     autorizacionCalls := autorizacionCalls w;
     draws := draws w; reads := reads w;
     trace := Sleep ms :: trace w |}.


Definition getRetryDelay (attempt : Z) (w : World) : Z * World :=
  let baseDelay := 1000 in
  let maxDelay := 30000 in
  let exponentialDelay := Z.min (baseDelay * 2 ^ (attempt - 1)) maxDelay in
  (exponentialDelay + jitter (draws w),
   {| recepcionCalls := recepcionCalls w;
      autorizacionCalls := autorizacionCalls w;
      draws := S (draws w); reads := reads w;
      trace := trace w |}).

Definition validarComprobanteAsync (xmlBase64 : string) (w : World)
  : SoapOutcome RawRecepcion * World :=
  (recepcion (recepcionCalls w),
   {| recepcionCalls := S (recepcionCalls w);
      autorizacionCalls := autorizacionCalls w;
      draws := draws w; reads := reads w;
      trace := CallRecepcion xmlBase64 :: trace w |}).


(** The [for] loop of [validarComprobante] with [n] iterations left. *)
Fixpoint validarLoop (xml : string) (n : nat) (attempt : Z)
    (lastError : option JSError) (w : World)
  : result Thrown ValidarComprobanteResponse * World :=
  match n with
  | O => (Throw (FalloValidar maxRetries lastError), w)
  | S n' =>
      let xmlBase64 := base64 xml in
      let '(outcome, w1) := validarComprobanteAsync xmlBase64 w in
      match outcome with
      | SoapResult result =>
          let respuesta := processValidarResponse result in
          if String.eqb (estado respuesta) "RECIBIDA" then (Ok respuesta, w1)
          else if String.eqb (estado respuesta) "DEVUELTA"
          then (Ok respuesta, w1)
          else validarLoop xml n' (attempt + 1) lastError w1
      | SoapFault error =>
          if isRetryableError error then
            if attempt <? maxRetries then
              let '(delay, w2) := getRetryDelay attempt w1 in
              validarLoop xml n' (attempt + 1) (Some error) (sleep delay w2)
            else validarLoop xml n' (attempt + 1) (Some error) w1
          else (Throw (Rethrown error), w1)
      end
  end.

(** [validarComprobante(xml)], once the SOAP clients exist. *)
Definition validarComprobante (xml : string) (w : World)
  : result Thrown ValidarComprobanteResponse * World :=
  validarLoop xml (Z.to_nat maxRetries) 1 None w.






End WithServices.

(** *** Auxiliary definitions for the properties of the connector *)



(** The number of pauses in a trace. *)
Definition sleepCount (t : list Event) : nat :=
  List.length
    (filter (fun ev => match ev with Sleep _ => true | _ => false end) t).

(** An error with another message. *)
Definition withMessage (e : JSError) (m : option string) : JSError :=
  {| message := m; response_status := response_status e; code := code e |}.

(** A response that ends [validarComprobante]. *)
Definition recibidaODevuelta (r : ValidarComprobanteResponse) : Prop :=
  estado r = "RECIBIDA" \/ estado r = "DEVUELTA".

(** A call after which the loop of [validarComprobante] goes on: a
    retryable fault, or a response that is neither RECIBIDA nor DEVUELTA. *)
Definition sigue (recepcion : nat -> SoapOutcome RawRecepcion) (i : nat)
  : Prop :=
  (exists e, recepcion i = SoapFault e /\ isRetryableError e = true) \/
  (exists raw, recepcion i = SoapResult raw /\
               ~ recibidaODevuelta (processValidarResponse raw)).

(** What a run of that loop does when it starts at call [c] with [n]
    iterations left and ends with [res] in the world [w']. *)
Definition corrida (recepcion : nat -> SoapOutcome RawRecepcion)
    (c n : nat) (res : result Thrown ValidarComprobanteResponse)
    (w' : World) : Prop :=
  (c <= recepcionCalls w' <= c + n)%nat /\
  (forall i raw,
     (c <= i < recepcionCalls w')%nat -> recepcion i = SoapResult raw ->
     recibidaODevuelta (processValidarResponse raw) ->
     res = Ok (processValidarResponse raw) /\ recepcionCalls w' = S i) /\
  (forall i, (c <= i)%nat -> (S i < recepcionCalls w')%nat ->
     sigue recepcion i).

Definition errorTimeout : JSError :=
  {| message := Some "ESOCKETTIMEDOUT: timeout of 30000ms exceeded";
     response_status := None; code := None |}.




Definition sinMensajes (e : option string) : RawRecepcion :=
  {| raw_estado := e; raw_comprobantes := [] |}.

(** A reception service that always times out. *)
Definition recepcion_caida (k : nat) : SoapOutcome RawRecepcion :=
  SoapFault errorTimeout.

(** A reception service that answers with a state outside the declared
    type. *)
Definition recepcion_en_proceso (k : nat) : SoapOutcome RawRecepcion :=
  SoapResult (sinMensajes (Some "EN PROCESO")).


Definition rawAutorizacion (e : string) : RawAutorizacion :=
  {| raw_aut_estado := Some e;
     raw_numeroAutorizacion := None;
     raw_fechaAutorizacion := None;
     raw_ambiente := None;
     raw_comprobante := None;
     raw_aut_mensajes := [] |}.

Definition rawRespuesta (l : list (option RawAutorizacion))
  : RawAutorizacionResponse :=
  {| raw_claveAccesoConsultada := None;
     raw_numeroComprobantes := None;
     raw_autorizaciones := l |}.

(** An authorization service that has no record yet, then is processing,
    then has authorized. *)
Definition autorizacion_tercera (k : nat)
  : SoapOutcome RawAutorizacionResponse :=
  match k with
  | O => SoapResult (rawRespuesta [])
  | S O => SoapResult (rawRespuesta [Some (rawAutorizacion "EN PROCESAMIENTO")])
  | _ => SoapResult (rawRespuesta [Some (rawAutorizacion "AUTORIZADO")])
  end.



End SRIConnector.

(* ================================================================== *)
(** * Properties                                                       *)
(* ================================================================== *)

Module StringFacts.

Lemma append_nil_r (s : string) : s ++ EmptyString = s.
Proof. induction s; cbn; congruence. Qed.

Lemma append_assoc (a b c : string) : (a ++ b) ++ c = a ++ (b ++ c).
Proof. induction a as [|x a IH]; cbn; [reflexivity | now rewrite IH]. Qed.

Lemma length_append (a b : string) :
  String.length (a ++ b) = (String.length a + String.length b)%nat.
Proof. induction a; cbn; auto. Qed.

End StringFacts.

Module ClaveAccesoProofs.
Import ClaveAcceso StringFacts.

Lemma isDigit_cases (c : ascii) :
  isDigit c = true ->
  parseInt (String c EmptyString) = Some (digitValue c) /\
  0 <= digitValue c <= 9 /\ digitChar (digitValue c) = c.
Proof.
  destruct c as [[] [] [] [] [] [] [] []]; intro H;
    try discriminate H; vm_compute; intuition discriminate.
Qed.

Lemma digitChar_isDigit (d : Z) : 0 <= d <= 9 -> isDigit (digitChar d) = true.
Proof.
  intros H.
  assert (d = 0 \/ d = 1 \/ d = 2 \/ d = 3 \/ d = 4 \/ d = 5 \/ d = 6 \/
          d = 7 \/ d = 8 \/ d = 9) as Hd by lia.
  repeat destruct Hd as [-> | Hd]; try subst d; reflexivity.
Qed.

Lemma get_allDigits (s : string) (k : nat) (c : ascii) :
  allDigits s = true -> String.get k s = Some c -> isDigit c = true.
Proof.
  revert k; induction s as [|a s IH]; intros k Hs Hg; simpl in *.
  - discriminate.
  - apply andb_prop in Hs as [Ha Hs].
    destruct k; [injection Hg as <-; exact Ha | eauto].
Qed.

Lemma get_lt (s : string) (k : nat) :
  (k < String.length s)%nat -> exists c, String.get k s = Some c.
Proof.
  revert k; induction s as [|a s IH]; intros k Hk; simpl in *; [lia|].
  destruct k; [eauto | apply IH; lia].
Qed.

Lemma sumaLoop_sigma (s : string) :
  allDigits s = true ->
  forall n i a, (i + n <= String.length s)%nat -> (i + n <= 48)%nat ->
  sumaLoop s n i (Some a) = Some (a + sigma s n i).
Proof.
  intros Hs; induction n as [|n IH]; intros i a Hl H48; cbn [sumaLoop sigma].
  - f_equal; lia.
  - destruct (get_lt s i) as [c Hc]; [lia|].
    pose proof (get_allDigits _ _ _ Hs Hc) as Hd.
    destruct (isDigit_cases c Hd) as (Hp & _ & _).
    unfold charAt, dv; rewrite Hc; cbn [parseIntOpt]; rewrite Hp.
    assert (nth_error multiplicadores i = Some (nth i multiplicadores 0)) as ->.
    { apply nth_error_nth'. simpl. lia. }
    cbn [num_mul num_add]. rewrite IH by lia. f_equal; lia.
Qed.

Lemma sigma_nonneg (s : string) :
  allDigits s = true ->
  forall n i, (i + n <= String.length s)%nat -> (i + n <= 48)%nat ->
  0 <= sigma s n i.
Proof.
  intros Hs; induction n as [|n IH]; intros i Hl H48; cbn [sigma]; [lia|].
  destruct (get_lt s i) as [c Hc]; [lia|].
  pose proof (get_allDigits _ _ _ Hs Hc) as Hd.
  destruct (isDigit_cases c Hd) as (_ & Hr & _).
  unfold dv; rewrite Hc.
  assert (0 <= nth i multiplicadores 0).
  { assert (i < 48)%nat as Hi by lia. clear - Hi.
    do 48 (destruct i as [|i]; [simpl; lia|]). lia. }
  specialize (IH (S i)). nia.
Qed.

Lemma sigma_ext (s s' : string) :
  forall n i,
  (forall j, (i <= j < i + n)%nat -> String.get j s = String.get j s') ->
  sigma s n i = sigma s' n i.
Proof.
  induction n as [|n IH]; intros i H; cbn [sigma]; [reflexivity|].
  unfold dv. rewrite (H i) by lia. rewrite (IH (S i)); [reflexivity|].
  intros j Hj; apply H; lia.
Qed.

Lemma sumaLoop_ext (s s' : string) :
  forall n i a,
  (forall j, (i <= j < i + n)%nat -> String.get j s = String.get j s') ->
  sumaLoop s n i a = sumaLoop s' n i a.
Proof.
  induction n as [|n IH]; intros i a H; cbn [sumaLoop]; [reflexivity|].
  unfold charAt. rewrite (H i) by lia. apply IH.
  intros j Hj; apply H; lia.
Qed.

Lemma get_substring0 (s : string) :
  forall m j, (j < m)%nat ->
  String.get j (String.substring 0 m s) = String.get j s.
Proof.
  induction s as [|a s IH]; intros m j Hj.
  - destruct m; reflexivity.
  - destruct m as [|m]; [lia|]. cbn [String.substring].
    destruct j; cbn [String.get]; [reflexivity | apply IH; lia].
Qed.

Lemma length_substring0 (s : string) :
  forall m, (m <= String.length s)%nat ->
  String.length (String.substring 0 m s) = m.
Proof.
  induction s as [|a s IH]; intros m Hm; cbn in *.
  - destruct m; [reflexivity | lia].
  - destruct m as [|m]; cbn; [reflexivity | rewrite IH; lia].
Qed.

Lemma allDigits_substring (s : string) :
  allDigits s = true ->
  forall a m, allDigits (String.substring a m s) = true.
Proof.
  induction s as [|c s IH]; intros Hs a m; cbn in *.
  - destruct a, m; reflexivity.
  - apply andb_prop in Hs as [Hc Hs].
    destruct a as [|a]; destruct m as [|m]; cbn; auto.
    rewrite Hc; cbn; auto.
Qed.

Lemma residuoDe_substring (k : string) :
  residuoDe (substring 0 48 k) = residuoDe k.
Proof.
  unfold residuoDe. f_equal. apply sumaLoop_ext.
  intros j Hj. apply get_substring0. lia.
Qed.

(** The residue of a key of digits is the weighted sum modulo 11. *)
Lemma residuoDe_sigma (k : string) :
  allDigits k = true -> (48 <= String.length k)%nat ->
  residuoDe k = Some (sigma k 48 0 mod 11) /\ 0 <= sigma k 48 0.
Proof.
  intros Hd Hl. unfold residuoDe.
  pose proof (sigma_nonneg k Hd 48 0 ltac:(lia) ltac:(lia)) as Hn.
  rewrite (sumaLoop_sigma k Hd 48 0 0) by lia.
  cbn [num_rem]. change (11 =? 0) with false. cbn iota.
  rewrite Z.rem_mod_nonneg by lia. split; [f_equal; f_equal; lia | exact Hn].
Qed.

(** What [validate] checks. *)
Lemma validate_spec (k : string) :
  validate k = true <->
  String.length k = 49%nat /\ allDigits k = true /\
  substring 48 49 k = toString (digitoDe (residuoDe k)).
Proof.
  unfold validate, testDigitsPlus, calcularModulo11.
  destruct (Nat.eqb_spec (String.length k) 49) as [Hl|Hl]; cbn [negb].
  2: { split; [discriminate | intros (? & _); contradiction]. }
  rewrite Hl. cbn [Nat.eqb negb andb].
  destruct (allDigits k) eqn:Hd; cbn [negb].
  2: { split; [discriminate | intros (_ & ? & _); discriminate]. }
  unfold substring at 1. rewrite length_substring0 by lia.
  cbn [Nat.eqb negb Nat.sub].
  change (String.substring 0 48 k) with (substring 0 48 k).
  rewrite residuoDe_substring, String.eqb_eq. tauto.
Qed.

Lemma length_setChar (i : nat) (d : ascii) (s : string) :
  String.length (setChar i d s) = String.length s.
Proof.
  revert i; induction s as [|c s IH]; intros [|i]; cbn; auto.
Qed.

Lemma allDigits_setChar (i : nat) (d : ascii) (s : string) :
  isDigit d = true -> allDigits s = true -> allDigits (setChar i d s) = true.
Proof.
  intros Hd; revert i; induction s as [|c s IH]; intros [|i] Hs; cbn in *;
    auto; apply andb_prop in Hs as [Hc Hs]; rewrite ?Hd, ?Hc; cbn; auto.
Qed.

Lemma get_setChar (i : nat) (d : ascii) (s : string) (j : nat) :
  String.get j (setChar i d s) =
  if (j =? i)%nat && (i <? String.length s)%nat then Some d
  else String.get j s.
Proof.
  revert i j; induction s as [|c s IH]; intros i j.
  - destruct i; cbn; rewrite andb_false_r; reflexivity.
  - destruct i as [|i], j as [|j]; cbn [setChar String.get]; try reflexivity.
    rewrite IH. reflexivity.
Qed.

Lemma substring_setChar (i : nat) (d : ascii) (s : string) :
  forall a m, (i < a)%nat ->
  String.substring a m (setChar i d s) = String.substring a m s.
Proof.
  revert i; induction s as [|c s IH]; intros i a m Ha.
  - destruct i; reflexivity.
  - destruct a as [|a]; [lia|].
    destruct i as [|i]; cbn [setChar String.substring]; [reflexivity|].
    apply IH; lia.
Qed.

Lemma multiplicadores_range (i : nat) :
  (i < 48)%nat -> 2 <= nth i multiplicadores 0 <= 7.
Proof.
  intros Hi. do 48 (destruct i as [|i]; [cbn; lia|]). lia.
Qed.

(** Replacing one digit moves the weighted sum by the weight of the position
    times the change of the digit. *)
Lemma sigma_setChar (i : nat) (d : ascii) (s : string) :
  (i < String.length s)%nat ->
  forall n j,
  sigma (setChar i d s) n j =
  sigma s n j +
  (if (j <=? i)%nat && (i <? j + n)%nat
   then (digitValue d - dv s i) * nth i multiplicadores 0 else 0).
Proof.
  intros Hi; induction n as [|n IH]; intros j; cbn [sigma].
  - replace ((j <=? i)%nat && (i <? j + 0)%nat) with false; [lia|].
    symmetry; apply andb_false_iff.
    destruct (Nat.leb_spec j i); [right; apply Nat.ltb_ge; lia | now left].
  - rewrite IH. unfold dv at 1. rewrite get_setChar.
    apply Nat.ltb_lt in Hi as Hi'. rewrite Hi', andb_true_r.
    destruct (Nat.eqb_spec j i) as [->|Hne].
    + replace ((i <=? i)%nat && (i <? i + S n)%nat) with true
        by (symmetry; apply andb_true_iff; split;
            [apply Nat.leb_le | apply Nat.ltb_lt]; lia).
      replace ((S i <=? i)%nat && (i <? S i + n)%nat) with false
        by (symmetry; apply andb_false_iff; left; apply Nat.leb_gt; lia).
      fold (dv s i). lia.
    + fold (dv s j).
      replace ((j <=? i)%nat && (i <? j + S n)%nat)
        with ((S j <=? i)%nat && (i <? S j + n)%nat); [lia|].
      destruct (Nat.leb_spec (S j) i), (Nat.leb_spec j i),
        (Nat.ltb_spec i (S j + n)), (Nat.ltb_spec i (j + S n));
        cbn; try reflexivity; lia.
Qed.

Lemma weight_times_change (delta w : Z) :
  -9 <= delta <= 9 -> delta <> 0 -> 2 <= w <= 7 -> (delta * w) mod 11 <> 0.
Proof.
  intros Hd Hz Hw.
  assert (w = 2 \/ w = 3 \/ w = 4 \/ w = 5 \/ w = 6 \/ w = 7) as Hc by lia.
  assert (delta = -9 \/ delta = -8 \/ delta = -7 \/ delta = -6 \/
          delta = -5 \/ delta = -4 \/ delta = -3 \/ delta = -2 \/
          delta = -1 \/ delta = 1 \/ delta = 2 \/ delta = 3 \/ delta = 4 \/
          delta = 5 \/ delta = 6 \/ delta = 7 \/ delta = 8 \/ delta = 9)
    as Hk by lia.
  repeat destruct Hc as [-> | Hc]; try subst w;
    repeat destruct Hk as [-> | Hk]; try subst delta; discriminate.
Qed.

Lemma digitoDe_collision (r r' : Z) :
  0 <= r <= 10 -> 0 <= r' <= 10 -> r <> r' ->
  (toString (digitoDe (Some r)) = toString (digitoDe (Some r')) <->
   (r = 1 /\ r' = 10) \/ (r = 10 /\ r' = 1)).
Proof.
  intros Hr Hr' Hne.
  assert (r = 0 \/ r = 1 \/ r = 2 \/ r = 3 \/ r = 4 \/ r = 5 \/ r = 6 \/
          r = 7 \/ r = 8 \/ r = 9 \/ r = 10) as Hc by lia.
  assert (r' = 0 \/ r' = 1 \/ r' = 2 \/ r' = 3 \/ r' = 4 \/ r' = 5 \/
          r' = 6 \/ r' = 7 \/ r' = 8 \/ r' = 9 \/ r' = 10) as Hc' by lia.
  repeat destruct Hc as [-> | Hc]; try subst r;
    repeat destruct Hc' as [-> | Hc']; try subst r';
    try (exfalso; apply Hne; reflexivity);
    vm_compute; (split; [intros H; try discriminate H; auto | intros [[? ?]|[? ?]]; try discriminate; reflexivity]).
Qed.


Lemma dv_range (s : string) (i : nat) :
  allDigits s = true -> 0 <= dv s i <= 9.
Proof.
  intros Hs. unfold dv. destruct (String.get i s) as [c|] eqn:Hc; [|lia].
  destruct (isDigit_cases c (get_allDigits _ _ _ Hs Hc)) as (_ & H & _).
  exact H.
Qed.

Lemma digitValue_inj (c d : ascii) :
  isDigit c = true -> isDigit d = true -> digitValue c = digitValue d -> c = d.
Proof.
  intros Hc Hd H.
  destruct (isDigit_cases c Hc) as (_ & _ & <-).
  destruct (isDigit_cases d Hd) as (_ & _ & <-).
  now rewrite H.
Qed.

(** C2 (amended): replacing one of the first 48 digits of a valid key by a
    different digit always changes the residue modulo 11 of the weighted
    sum, and the mutated key still validates exactly when the two residues
    are 1 and 10, the two residues that the scheme maps to check digit 1. *)
Theorem mutation_changes_residue (k : string) (i : nat) (d : ascii) :
  validate k = true -> (i < 48)%nat -> isDigit d = true ->
  String.get i k <> Some d ->
  let r := residuoDe (substring 0 48 k) in
  let r' := residuoDe (substring 0 48 (setChar i d k)) in
  r' <> r /\
  (validate (setChar i d k) = true <->
   (r = Some 1 /\ r' = Some 10) \/ (r = Some 10 /\ r' = Some 1)).
Proof.
  intros Hv Hi Hd Hne. cbv zeta. rewrite !residuoDe_substring.
  apply validate_spec in Hv as (Hl & Hk & Hc).
  pose proof (allDigits_setChar i d k Hd Hk) as Hk'.
  destruct (residuoDe_sigma k Hk ltac:(lia)) as [Hr Hs].
  destruct (residuoDe_sigma (setChar i d k) Hk'
              ltac:(rewrite length_setChar; lia)) as [Hr' Hs'].
  rewrite sigma_setChar in Hr', Hs' by lia.
  replace ((0 <=? i)%nat && (i <? 0 + 48)%nat) with true in Hr', Hs'
    by (symmetry; apply andb_true_iff; split;
        [apply Nat.leb_le | apply Nat.ltb_lt]; lia).
  set (S0 := sigma k 48 0) in *.
  set (p := (digitValue d - dv k i) * nth i multiplicadores 0) in *.
  assert (p mod 11 <> 0) as Hp.
  { apply weight_times_change.
    - destruct (isDigit_cases d Hd) as (_ & ? & _).
      pose proof (dv_range k i Hk). lia.
    - unfold dv. destruct (get_lt k i ltac:(lia)) as [c Hgc]. rewrite Hgc.
      intros Heq. apply Hne. rewrite Hgc. f_equal.
      apply digitValue_inj; [exact (get_allDigits _ _ _ Hk Hgc) | exact Hd | lia].
    - apply multiplicadores_range; exact Hi. }
  assert (S0 mod 11 <> (S0 + p) mod 11) as Hmod.
  { intros E. apply Hp.
    replace p with ((S0 + p) - S0) by lia.
    rewrite Zminus_mod, <- E, Z.sub_diag. reflexivity. }
  split.
  - rewrite Hr, Hr'. intros E. injection E as E. auto.
  - rewrite validate_spec, length_setChar.
    unfold substring. rewrite substring_setChar by lia.
    fold (substring 48 49 k). rewrite Hc, Hr, Hr'.
    pose proof (Z.mod_pos_bound S0 11 ltac:(lia)).
    pose proof (Z.mod_pos_bound (S0 + p) 11 ltac:(lia)).
    rewrite (digitoDe_collision (S0 mod 11) ((S0 + p) mod 11)) by (auto; lia).
    split.
    + intros (_ & _ & [[-> ->]|[-> ->]]); auto.
    + intros [[E1 E2]|[E1 E2]]; injection E1 as ->; injection E2 as ->; auto.
Qed.

(** A valid key, a position and a digit that meet the hypotheses. *)
Lemma mutation_changes_residue_witness :
  let r := residuoDe (substring 0 48 clave_residuo_1) in
  let r' := residuoDe (substring 0 48 (setChar 0 "1" clave_residuo_1)) in
  r' <> r /\
  (validate (setChar 0 "1" clave_residuo_1) = true <->
   (r = Some 1 /\ r' = Some 10) \/ (r = Some 10 /\ r' = Some 1)).
Proof.
  apply (mutation_changes_residue clave_residuo_1 0 "1"%char).
  - reflexivity.
  - lia.
  - reflexivity.
  - vm_compute. discriminate.
Defined.

(** C2 as stated fails: in the valid key [clave_residuo_1] the digit 6 at
    position 5 (weight 2) can be replaced by 5; the residue goes from 1 to
    10, the check digit stays 1 and the mutated key still validates. *)
Lemma single_digit_mutation_undetected :
  validate clave_residuo_1 = true /\
  (5 < 48)%nat /\ isDigit "5" = true /\
  String.get 5 clave_residuo_1 <> Some "5"%char /\
  validate (setChar 5 "5" clave_residuo_1) = true.
Proof.
  repeat split; try reflexivity; try lia. vm_compute. discriminate.
Qed.


(** C10: on every string of exactly 48 ASCII digits the check digit of
    [ClaveAccesoService.calcularModulo11] (weights 7,6,5,4,3,2 from the
    left) equals the one of [InvoiceXMLBuilder.calcularModulo11] (factors
    2,3,4,5,6,7 from the right). *)
Theorem calcularModulo11_agree (s : string) :
  String.length s = 48%nat -> allDigits s = true ->
  calcularModulo11 s = Ok (InvoiceXMLBuilder.calcularModulo11 s).
Proof.
  intros Hl Hd.
  unfold calcularModulo11, InvoiceXMLBuilder.calcularModulo11.
  rewrite Hl. cbn [Nat.eqb negb].
  unfold residuoDe, digitoDe.
  assert (sumaLoop s 48 0 (Some 0) =
          InvoiceXMLBuilder.sumaLoop s 48 (Some 0) 0) as ->.
  2: { destruct (num_sub (Some 11)
                   (num_rem (InvoiceXMLBuilder.sumaLoop s 48 (Some 0) 0)
                      (Some 11))) as [z|]; [|reflexivity].
       destruct z as [|q|q]; try reflexivity.
       do 4 (destruct q as [q|q|]; try reflexivity). }
  do 48 (destruct s as [|? s]; [discriminate Hl|]).
  destruct s; [|discriminate Hl]. clear Hl.
  cbn [allDigits] in Hd.
  repeat match type of Hd with
         | (_ && _)%bool = true => apply andb_prop in Hd as [?H Hd]
         end.
  cbn [sumaLoop InvoiceXMLBuilder.sumaLoop charAt String.get parseIntOpt
       nth_error multiplicadores InvoiceXMLBuilder.factores
       List.length Nat.add Nat.modulo Nat.divmod fst snd Nat.sub].
  repeat match goal with
         | H : isDigit ?c = true |- _ =>
             let E := fresh in
             destruct (isDigit_cases c H) as (E & _ & _);
             rewrite !E; clear E H
         end.
  cbn [num_add num_mul]. f_equal. ring.
Qed.

Lemma calcularModulo11_agree_witness :
  calcularModulo11 "150120240117921467390011001001000000001123456781" =
  Ok (InvoiceXMLBuilder.calcularModulo11
        "150120240117921467390011001001000000001123456781").
Proof.
  apply calcularModulo11_agree; reflexivity.
Defined.


(** *** Lengths and digits of the parts of a key *)

Lemma allDigits_append (a b : string) :
  allDigits (a ++ b) = allDigits a && allDigits b.
Proof.
  induction a as [|c a IH]; cbn; [reflexivity|].
  rewrite IH, andb_assoc; reflexivity.
Qed.

Lemma testDigitsN_spec (n : nat) (s : string) :
  testDigitsN n s = true <-> String.length s = n /\ allDigits s = true.
Proof.
  unfold testDigitsN. rewrite andb_true_iff, Nat.eqb_eq. tauto.
Qed.

Lemma testDigitsN_append (n m : nat) (a b : string) :
  testDigitsN n a = true -> testDigitsN m b = true ->
  testDigitsN (n + m) (a ++ b) = true.
Proof.
  rewrite !testDigitsN_spec, length_append, allDigits_append.
  intros [-> ->] [-> ->]; auto.
Qed.

Lemma length_repeatChar (c : ascii) (n : nat) :
  String.length (repeatChar c n) = n.
Proof. induction n; cbn; auto. Qed.

Lemma allDigits_repeat0 (n : nat) : allDigits (repeatChar "0" n) = true.
Proof. induction n; cbn; auto. Qed.

Lemma padStart_digits (n : nat) (s : string) :
  (String.length s <= n)%nat -> allDigits s = true ->
  testDigitsN n (padStart n s) = true.
Proof.
  intros Hl Hd. apply testDigitsN_spec. unfold padStart.
  rewrite length_append, length_repeatChar, allDigits_append,
    allDigits_repeat0, Hd.
  split; [lia | reflexivity].
Qed.

Lemma pow10_pos (k : nat) : 0 < pow10 k.
Proof. induction k; cbn [pow10]; lia. Qed.

Lemma pow2_le_pow10 (k : nat) : 2 ^ Z.of_nat k <= pow10 k.
Proof.
  induction k as [|k IH]; [cbn; lia|].
  rewrite Nat2Z.inj_succ, Z.pow_succ_r by lia. cbn [pow10]. lia.
Qed.

(** A number with exactly [k] decimal digits prints as [k] digits. *)
Lemma digitsFuel_digits (k : nat) :
  forall fuel n acc,
  (1 <= k <= fuel)%nat -> 0 <= n < pow10 k ->
  (k = 1%nat \/ pow10 (k - 1) <= n) ->
  String.length (digitsFuel fuel n acc) = (k + String.length acc)%nat /\
  (allDigits acc = true -> allDigits (digitsFuel fuel n acc) = true).
Proof.
  induction k as [|k IH]; intros fuel n acc Hk Hn Hlow; [lia|].
  destruct fuel as [|fuel]; [lia|]. cbn [digitsFuel].
  assert (isDigit (digitChar (n mod 10)) = true) as Hc.
  { apply digitChar_isDigit.
    pose proof (Z.mod_pos_bound n 10 ltac:(lia)). lia. }
  destruct (Z.ltb_spec n 10) as [Hlt|Hge].
  - assert (k = 0%nat) as ->.
    { destruct k as [|k]; [reflexivity|]. exfalso.
      destruct Hlow as [Hlow|Hlow]; [lia|].
      replace (S (S k) - 1)%nat with (S k) in Hlow by lia.
      cbn [pow10] in Hlow. pose proof (pow10_pos k). lia. }
    cbn [String.length allDigits]. rewrite Hc. split; [lia | auto].
  - destruct k as [|k]; [cbn [pow10] in Hn; lia|].
    cbn [pow10] in Hn.
    destruct (IH fuel (n / 10) (String (digitChar (n mod 10)) acc))
      as [Hlen Hdig].
    + lia.
    + split; [apply Z.div_pos; lia|].
      apply Z.div_lt_upper_bound; cbn [pow10]; lia.
    + destruct k as [|k]; [left; reflexivity | right].
      replace (S (S k) - 1)%nat with (S k) by lia.
      destruct Hlow as [Hlow|Hlow]; [lia|].
      replace (S (S (S k)) - 1)%nat with (S (S k)) in Hlow by lia.
      cbn [pow10] in Hlow |- *.
      apply Z.div_le_lower_bound; lia.
    + rewrite Hlen. cbn [String.length allDigits] in *. rewrite Hc in Hdig.
      split; [lia | auto].
Qed.

Lemma Z_toString_digits (k : nat) (n : Z) :
  (1 <= k)%nat -> 0 <= n < pow10 k -> (k = 1%nat \/ pow10 (k - 1) <= n) ->
  testDigitsN k (Z_toString n) = true.
Proof.
  intros Hk Hn Hlow. apply testDigitsN_spec. unfold Z_toString.
  destruct (Z.ltb_spec n 0) as [?|_]; [lia|].
  destruct (digitsFuel_digits k (S (Z.to_nat (Z.log2 n))) n EmptyString)
    as [Hlen Hdig]; auto.
  - split; [lia|].
    destruct Hlow as [->|Hlow]; [lia|].
    assert (Z.of_nat (k - 1) <= Z.log2 n); [|lia].
    apply Z.log2_le_pow2; [pose proof (pow10_pos (k - 1)); lia|].
    pose proof (pow2_le_pow10 (k - 1)). lia.
  - cbn [String.length] in Hlen. split; [lia | auto].
Qed.

(** One or two decimal digits, padded to two. *)
Lemma padStart2_digits (n : Z) :
  0 <= n <= 99 -> testDigitsN 2 (padStart 2 (Z_toString n)) = true.
Proof.
  intros Hn. destruct (Z.ltb_spec n 10) as [Hlt|Hge].
  - pose proof (Z_toString_digits 1 n ltac:(lia)
                  ltac:(cbn [pow10]; lia) ltac:(auto)) as H.
    apply testDigitsN_spec in H as [Hl Hd].
    apply padStart_digits; [lia | exact Hd].
  - pose proof (Z_toString_digits 2 n ltac:(lia)
                  ltac:(cbn [pow10]; lia) ltac:(right; cbn; lia)) as H.
    apply testDigitsN_spec in H as [Hl Hd].
    apply padStart_digits; [lia | exact Hd].
Qed.

Lemma generateCodigoNumerico_digits (r : Z) :
  0 <= r < 90000000 -> testDigitsN 8 (generateCodigoNumerico r) = true.
Proof.
  intros Hr. unfold generateCodigoNumerico.
  apply Z_toString_digits; [lia | cbn [pow10]; lia | right; cbn; lia].
Qed.

Lemma test12_digits (s : string) :
  test12 s = true -> testDigitsN 1 s = true.
Proof.
  unfold test12. rewrite orb_true_iff, !String.eqb_eq.
  intros [-> | ->]; reflexivity.
Qed.

Lemma testRuc_digits (s : string) :
  testRuc s = true -> testDigitsN 13 s = true.
Proof.
  unfold testRuc. rewrite !andb_true_iff, Nat.eqb_eq, String.eqb_eq.
  intros [[Hl Hd] He].
  do 13 (destruct s as [|? s]; [discriminate Hl|]).
  destruct s; [|discriminate Hl].
  cbn in He. injection He as -> -> ->.
  cbn in Hd |- *.
  repeat match type of Hd with
         | (_ && _)%bool = true => apply andb_prop in Hd as [?H Hd]
         end.
  repeat match goal with H : isDigit _ = true |- _ => rewrite H; clear H end.
  reflexivity.
Qed.

Lemma tiposValidos_digits (s : string) :
  arrayIncludes tiposValidos s = true -> testDigitsN 2 s = true.
Proof.
  unfold arrayIncludes, tiposValidos. cbn [existsb].
  rewrite !orb_true_iff, !String.eqb_eq.
  intuition (subst; try reflexivity; discriminate).
Qed.

Lemma digitoDe_digit (r : Z) :
  0 <= r <= 10 -> testDigitsN 1 (toString (digitoDe (Some r))) = true.
Proof.
  intros Hr.
  assert (r = 0 \/ r = 1 \/ r = 2 \/ r = 3 \/ r = 4 \/ r = 5 \/ r = 6 \/
          r = 7 \/ r = 8 \/ r = 9 \/ r = 10) as Hc by lia.
  repeat destruct Hc as [-> | Hc]; try subst r; reflexivity.
Qed.

(** On 48 digits [calcularModulo11] returns one digit. *)
Lemma calcularModulo11_digit (clave : string) :
  testDigitsN 48 clave = true ->
  exists dvf, calcularModulo11 clave = Ok dvf /\ testDigitsN 1 dvf = true.
Proof.
  intros H. apply testDigitsN_spec in H as [Hl Hd].
  unfold calcularModulo11. rewrite Hl. cbn [Nat.eqb negb].
  destruct (residuoDe_sigma clave Hd ltac:(lia)) as [-> _].
  eexists; split; [reflexivity|].
  apply digitoDe_digit.
  pose proof (Z.mod_pos_bound (sigma clave 48 0) 11 ltac:(lia)). lia.
Qed.

(** What an accepted parameter set looks like. *)
Lemma validateParams_accepts (p : ClaveAccesoParams) :
  validateParams p = [] ->
  testRuc (ruc p) = true /\
  test12 (toString (ambiente p)) = true /\
  test12 (toString (tipoEmision p)) = true /\
  testDigitsN 3 (establecimiento p) = true /\
  testDigitsN 3 (puntoEmision p) = true /\
  (exists n, parseInt (secuencial p) = Some n /\ 0 < n <= 999999999) /\
  arrayIncludes tiposValidos (tipoComprobante p) = true.
Proof.
  unfold validateParams. intros H.
  repeat match type of H with
         | (_ ++ _)%list = [] => apply app_eq_nil in H as [?H H]
         end.
  repeat match goal with
         | H : (if negb ?b then _ else _) = [] |- _ =>
             destruct b eqn:?; [clear H | discriminate H]
         end.
  repeat split; try reflexivity.
  match goal with
  | H : match parseInt _ with _ => _ end = [] |- _ =>
      destruct (parseInt (secuencial p)) as [n|]; [|discriminate H];
      exists n; split; [reflexivity|];
      destruct (Z.leb_spec n 0), (Z.ltb_spec 999999999 n);
      cbn in H; try discriminate H; lia
  end.
Qed.


Lemma get_append_left (a b : string) (j : nat) :
  (j < String.length a)%nat -> String.get j (a ++ b) = String.get j a.
Proof.
  revert j; induction a as [|c a IH]; intros j Hj; cbn in *; [lia|].
  destruct j; [reflexivity | apply IH; lia].
Qed.

Lemma substring_append_right (a b : string) (m : nat) :
  String.substring (String.length a) m (a ++ b) = String.substring 0 m b.
Proof. induction a; cbn; auto. Qed.

Lemma substring_all (b : string) : String.substring 0 (String.length b) b = b.
Proof. induction b; cbn; congruence. Qed.

(** A base of 48 digits followed by its check digit validates. *)
Lemma validate_append (base dvf : string) :
  testDigitsN 48 base = true -> calcularModulo11 base = Ok dvf ->
  testDigitsN 49 (base ++ dvf) = true -> validate (base ++ dvf) = true.
Proof.
  intros Hb Hc Hk.
  apply testDigitsN_spec in Hb as [Hbl Hbd].
  apply testDigitsN_spec in Hk as [Hkl Hkd].
  apply validate_spec. split; [exact Hkl|]. split; [exact Hkd|].
  unfold calcularModulo11 in Hc. rewrite Hbl in Hc.
  cbn [Nat.eqb negb] in Hc.
  assert (toString (digitoDe (residuoDe base)) = dvf) as Hc'
    by congruence.
  assert (residuoDe (base ++ dvf) = residuoDe base) as ->.
  { unfold residuoDe. f_equal. apply sumaLoop_ext.
    intros j Hj. apply get_append_left. lia. }
  rewrite Hc'. unfold substring. rewrite <- Hbl at 1.
  rewrite substring_append_right.
  rewrite length_append in Hkl.
  replace (49 - 48)%nat with (String.length dvf) by lia.
  apply substring_all.
Qed.

Section Generate.

Variable Date_parse : string -> Date.

Lemma generate_Ok_inv (p : ClaveAccesoParams) (r : Z) (k : string) :
  generate Date_parse p r = Ok k ->
  exists fecha dvf,
    validateParams p = [] /\
    formatFecha Date_parse (fechaEmision p) = Ok fecha /\
    k = claveSinDigito p fecha r ++ dvf /\
    testDigitsN 48 (claveSinDigito p fecha r) = true /\
    calcularModulo11 (claveSinDigito p fecha r) = Ok dvf /\
    testDigitsN 49 k = true.
Proof.
  unfold generate. destruct (validateParams p); [|discriminate].
  destruct (formatFecha Date_parse (fechaEmision p)) as [fecha|];
    [|discriminate].
  fold (claveSinDigito p fecha r).
  destruct (String.length (claveSinDigito p fecha r) =? 48)%nat;
    [|discriminate]. cbn [negb].
  destruct (testDigitsN 48 (claveSinDigito p fecha r)) eqn:Hb;
    [|discriminate]. cbn [negb].
  destruct (calcularModulo11 (claveSinDigito p fecha r)) as [dvf|] eqn:Hc;
    [|discriminate].
  destruct (testDigitsN 49 (claveSinDigito p fecha r ++ dvf)) eqn:Hk;
    [|discriminate]. cbn [negb].
  intros E; injection E as <-. exists fecha, dvf.
  repeat split; first [assumption | reflexivity].
Qed.

Lemma generate_Ok_intro (p : ClaveAccesoParams) (r : Z) (fecha : string) :
  validateParams p = [] ->
  formatFecha Date_parse (fechaEmision p) = Ok fecha ->
  testDigitsN 48 (claveSinDigito p fecha r) = true ->
  exists dvf,
    generate Date_parse p r = Ok (claveSinDigito p fecha r ++ dvf) /\
    testDigitsN 1 dvf = true.
Proof.
  intros Hv Hf Hb. unfold generate. rewrite Hv, Hf.
  fold (claveSinDigito p fecha r).
  destruct (calcularModulo11_digit _ Hb) as (dvf & Hc & Hd).
  pose proof (testDigitsN_append 48 1 _ _ Hb Hd) as Hk.
  apply testDigitsN_spec in Hb as Hb'. destruct Hb' as [Hl _].
  rewrite Hl, Hb, Hc. cbn [Nat.eqb negb].
  change (48 + 1)%nat with 49%nat in Hk. rewrite Hk. cbn [negb].
  exists dvf; split; [reflexivity | exact Hd].
Qed.

(** With an accepted parameter set, the base has 48 digits as soon as the
    date part has 8 and the padded sequence number 9. *)
Lemma claveSinDigito_digits (p : ClaveAccesoParams) (fecha : string) (r : Z) :
  validateParams p = [] -> 0 <= r < 90000000 ->
  testDigitsN 8 fecha = true ->
  testDigitsN 9 (padStart 9 (secuencial p)) = true ->
  testDigitsN 48 (claveSinDigito p fecha r) = true.
Proof.
  intros Hv Hr Hf Hs.
  destruct (validateParams_accepts p Hv)
    as (Hruc & Hamb & Hemi & Hest & Hpto & _ & Htipo).
  apply testRuc_digits, testDigitsN_spec in Hruc as [? ?].
  apply tiposValidos_digits, testDigitsN_spec in Htipo as [? ?].
  apply testDigitsN_spec in Hest as [? ?].
  apply testDigitsN_spec in Hpto as [? ?].
  unfold claveSinDigito.
  apply (testDigitsN_append 8 40); [exact Hf|].
  apply (testDigitsN_append 2 38); [apply padStart_digits; auto; lia|].
  apply (testDigitsN_append 13 25); [apply padStart_digits; auto; lia|].
  apply (testDigitsN_append 1 24); [apply test12_digits; exact Hamb|].
  apply (testDigitsN_append 3 21); [apply padStart_digits; auto; lia|].
  apply (testDigitsN_append 3 18); [apply padStart_digits; auto; lia|].
  apply (testDigitsN_append 9 9); [exact Hs|].
  apply (testDigitsN_append 8 1);
    [apply generateCodigoNumerico_digits; exact Hr|].
  apply test12_digits; exact Hemi.
Qed.

Lemma formatFecha_digits (fecha : Fecha) (y m d : Z) :
  fechaDate Date_parse fecha = Local y m d ->
  1000 <= y <= 9999 -> 0 <= m <= 11 -> 1 <= d <= 31 ->
  exists f, formatFecha Date_parse fecha = Ok f /\ testDigitsN 8 f = true.
Proof.
  intros Hf Hy Hm Hd. unfold formatFecha. rewrite Hf.
  eexists; split; [reflexivity|].
  apply (testDigitsN_append 2 6); [apply padStart2_digits; lia|].
  apply (testDigitsN_append 2 4); [apply padStart2_digits; lia|].
  apply Z_toString_digits; [lia | cbn [pow10]; lia | right; cbn; lia].
Qed.

(** Whatever [generate] returns is a key of 49 digits that validates. *)
Lemma generate_Ok_valid (p : ClaveAccesoParams) (r : Z) (k : string) :
  generate Date_parse p r = Ok k ->
  String.length k = 49%nat /\ allDigits k = true /\ validate k = true.
Proof.
  intros Hk.
  destruct (generate_Ok_inv p r k Hk)
    as (fecha & dvf & _ & _ & -> & Hb & Hc & H49).
  apply testDigitsN_spec in H49 as H49'. destruct H49' as [Hl Hd].
  split; [exact Hl|]. split; [exact Hd|].
  apply validate_append; assumption.
Qed.

(** C1 (amended): for a parameter set accepted by [validateParams],
    [generate] either throws at one of its later guards (invalid date, base
    not made of exactly 48 digits) or returns a string of exactly 49 ASCII
    digits that [validate] accepts; and it does return whenever the date is a
    valid one with a four-digit year and the sequence number consists of at
    most nine ASCII digits. *)
Theorem generate_valid_key (p : ClaveAccesoParams) (r : Z) :
  validateParams p = [] -> 0 <= r < 90000000 ->
  (forall k, generate Date_parse p r = Ok k ->
     String.length k = 49%nat /\ allDigits k = true /\ validate k = true) /\
  (forall y m d,
     fechaDate Date_parse (fechaEmision p) = Local y m d ->
     1000 <= y <= 9999 -> 0 <= m <= 11 -> 1 <= d <= 31 ->
     allDigits (secuencial p) = true ->
     (String.length (secuencial p) <= 9)%nat ->
     exists k, generate Date_parse p r = Ok k).
Proof.
  intros Hv Hr. split.
  - intros k Hk. apply (generate_Ok_valid p r k Hk).
  - intros y m d Hf Hy Hm Hd Hs Hl.
    destruct (formatFecha_digits _ y m d Hf Hy Hm Hd) as (f & Hff & Hf8).
    destruct (generate_Ok_intro p r f Hv Hff) as (dvf & Hg & _).
    + apply claveSinDigito_digits; try assumption.
      apply padStart_digits; assumption.
    + exists (claveSinDigito p f r ++ dvf). exact Hg.
Qed.

End Generate.

Lemma generate_valid_key_witness :
  (forall k,
     generate (fun _ => Invalid)
       (vector_params (FechaDate (Local 2024 0 15))) 0 = Ok k ->
     String.length k = 49%nat /\ allDigits k = true /\ validate k = true) /\
  (forall y m d,
     fechaDate (fun _ => Invalid)
       (fechaEmision (vector_params (FechaDate (Local 2024 0 15))))
     = Local y m d ->
     1000 <= y <= 9999 -> 0 <= m <= 11 -> 1 <= d <= 31 ->
     allDigits (secuencial (vector_params (FechaDate (Local 2024 0 15))))
     = true ->
     (String.length
        (secuencial (vector_params (FechaDate (Local 2024 0 15)))) <= 9)%nat ->
     exists k,
       generate (fun _ => Invalid)
         (vector_params (FechaDate (Local 2024 0 15))) 0 = Ok k).
Proof.
  apply (generate_valid_key (fun _ => Invalid)
           (vector_params (FechaDate (Local 2024 0 15))) 0).
  - reflexivity.
  - lia.
Defined.

(** C1 as stated fails: both parameter sets below pass [validateParams]
    ([parseInt] reads "1a" as 1, and the date is not looked at), and
    [generate] throws on each instead of returning a key. *)
Lemma accepted_params_generate_throws :
  validateParams params_secuencial_1a = [] /\
  generate (fun _ => Invalid) params_secuencial_1a 0
    = Throw ClaveBaseNoNumerica /\
  validateParams (vector_params (FechaDate Invalid)) = [] /\
  generate (fun _ => Invalid) (vector_params (FechaDate Invalid)) 0
    = Throw FechaInvalida.
Proof. repeat split; reflexivity. Qed.

(** C3: for the date 15/01/2024 (as the [Date] object of the repository's
    test or as the string "15/01/2024"), type "01", RUC "1792146739001",
    environment 1, establishment "001", emission point "001", sequence
    "000000001" and emission type 1, whatever the random draw, [generate]
    returns a key of length 49 that starts with "150120240117921467390011"
    and that [validate] accepts. *)
Theorem known_vector (Date_parse : string -> Date) (fecha : Fecha) (r : Z) :
  0 <= r < 90000000 ->
  fecha = FechaDate (newDate (Some 2024) (Some 0) (Some 15)) \/
  fecha = FechaString "15/01/2024" ->
  exists k,
    generate Date_parse (vector_params fecha) r = Ok k /\
    substring 0 24 k = "150120240117921467390011" /\
    String.length k = 49%nat /\
    validate k = true.
Proof.
  intros Hr Hf.
  assert (validateParams (vector_params fecha) = []) as Hv by reflexivity.
  assert (formatFecha Date_parse fecha = Ok "15012024") as Hff
    by (destruct Hf as [-> | ->]; reflexivity).
  destruct (generate_Ok_intro Date_parse (vector_params fecha) r "15012024"
              Hv Hff) as (dvf & Hg & Hd).
  { apply claveSinDigito_digits; first [assumption | reflexivity]. }
  eexists; split; [exact Hg|].
  destruct (generate_Ok_valid Date_parse _ r _ Hg) as (Hl & _ & Hval).
  split; [|split; assumption].
  unfold claveSinDigito, vector_params; cbn [tipoComprobante ruc ambiente
    establecimiento puntoEmision secuencial tipoEmision].
  reflexivity.
Qed.

Lemma known_vector_witness :
  exists k,
    generate (fun _ => Invalid) (vector_params (FechaString "15/01/2024"))
      12345678 = Ok k /\
    substring 0 24 k = "150120240117921467390011" /\
    String.length k = 49%nat /\
    validate k = true.
Proof.
  apply (known_vector (fun _ => Invalid) (FechaString "15/01/2024") 12345678).
  - lia.
  - right; reflexivity.
Defined.

End ClaveAccesoProofs.

Module SRIC14NProofs.
Import SRIC14N StringFacts.

Lemma replaceAll_app (c : ascii) (r a b : string) :
  replaceAll c r (a ++ b) = replaceAll c r a ++ replaceAll c r b.
Proof.
  induction a as [|x a IH]; cbn [replaceAll append]; [reflexivity|].
  destruct (Ascii.eqb x c); rewrite IH; cbn [append];
    [now rewrite append_assoc | reflexivity].
Qed.

Lemma escapeAttributeValue_app (a b : string) :
  escapeAttributeValue (a ++ b) =
  escapeAttributeValue a ++ escapeAttributeValue b.
Proof. unfold escapeAttributeValue. now rewrite !replaceAll_app. Qed.

Lemma canonicalizeText_app (a b : string) :
  canonicalizeText (a ++ b) = canonicalizeText a ++ canonicalizeText b.
Proof. unfold canonicalizeText. now rewrite !replaceAll_app. Qed.

Lemma escapeAttributeValue_char (c : ascii) :
  escapeAttributeValue (String c EmptyString) = attrReference c.
Proof. destruct c as [[] [] [] [] [] [] [] []]; reflexivity. Qed.

Lemma canonicalizeText_char (c : ascii) :
  canonicalizeText (String c EmptyString) = textReference c.
Proof. destruct c as [[] [] [] [] [] [] [] []]; reflexivity. Qed.

Lemma escapeAttributeValue_flatMap (s : string) :
  escapeAttributeValue s = flatMap attrReference s.
Proof.
  induction s as [|c s IH]; [reflexivity|].
  change (String c s) with (String c EmptyString ++ s).
  rewrite escapeAttributeValue_app, escapeAttributeValue_char, IH.
  reflexivity.
Qed.

Lemma canonicalizeText_flatMap (s : string) :
  canonicalizeText s = flatMap textReference s.
Proof.
  induction s as [|c s IH]; [reflexivity|].
  change (String c s) with (String c EmptyString ++ s).
  rewrite canonicalizeText_app, canonicalizeText_char, IH.
  reflexivity.
Qed.

(** C5 (amended): in the output of the canonicalizer an attribute value is
    its characters one by one, each of the six characters ampersand,
    less-than, double quote, tab, newline and CR replaced by its reference
    and every other character (the greater-than sign among them) left as it
    is; a text node is its characters one by one, each of ampersand,
    less-than, greater-than and CR replaced by its reference and every other
    character left as it is. *)
Theorem escaping_by_context (localeCompare : string -> string -> Z) :
  (forall a : Attr,
     emitAttr a =
     " " ++ name a ++ "=" ++ quot ++ flatMap attrReference (value a) ++ quot)
  /\
  (forall (v : string) (inherited : Obj),
     canonicalizeNode localeCompare (Text v) inherited
     = flatMap textReference v) /\
  (forall c : ascii,
     attrReference c = String c EmptyString <->
     ~ In c ["&"; "<"; "034"; "009"; "010"; "013"]%char) /\
  (forall c : ascii,
     textReference c = String c EmptyString <->
     ~ In c ["&"; "<"; ">"; "013"]%char).
Proof.
  split; [|split; [|split]].
  - intros a. unfold emitAttr. now rewrite escapeAttributeValue_flatMap.
  - intros v inherited. cbn [canonicalizeNode].
    apply canonicalizeText_flatMap.
  - intros c. destruct c as [[] [] [] [] [] [] [] []]; cbn;
      (split; [intros H; try discriminate H; intuition discriminate
              | intros H; try reflexivity; exfalso; apply H; tauto]).
  - intros c. destruct c as [[] [] [] [] [] [] [] []]; cbn;
      (split; [intros H; try discriminate H; intuition discriminate
              | intros H; try reflexivity; exfalso; apply H; tauto]).
Qed.

(** C5 as stated fails: a greater-than sign in an attribute value is not
    replaced by a reference. *)
Lemma attribute_value_keeps_gt :
  escapeAttributeValue ">" = ">" /\
  canonicalize codeCompare
    (Element "a" "" "a" [ {| name := "b"; value := ">" |} ] [])
  = "<a b=" ++ quot ++ ">" ++ quot ++ "></a>".
Proof. split; reflexivity. Qed.

(** C4 at its failing input: the two documents differ only in the order of
    the attributes [xmlns] and [xmlnsa] of the root, and their canonical
    forms differ, whatever the collation; each carries the value of the
    attribute that comes last. *)
Theorem attribute_order_changes_output
    (localeCompare : string -> string -> Z) :
  canonicalize localeCompare doc_xmlns_first
  = "<r xmlns=" ++ quot ++ "B" ++ quot ++ "></r>" /\
  canonicalize localeCompare doc_xmlns_last
  = "<r xmlns=" ++ quot ++ "A" ++ quot ++ "></r>" /\
  canonicalize localeCompare doc_xmlns_first
  <> canonicalize localeCompare doc_xmlns_last.
Proof.
  assert (canonicalize localeCompare doc_xmlns_first
          = "<r xmlns=" ++ quot ++ "B" ++ quot ++ "></r>") as H1
    by reflexivity.
  assert (canonicalize localeCompare doc_xmlns_last
          = "<r xmlns=" ++ quot ++ "A" ++ quot ++ "></r>") as H2
    by reflexivity.
  split; [exact H1|]. split; [exact H2|].
  rewrite H1, H2. discriminate.
Qed.

End SRIC14NProofs.

Module SignerProofs.
Import SRIC14N SignatureView StringFacts.

Lemma scanTags_noMarkup_out (x rest : string) :
  noMarkup x = true -> scanTags (x ++ rest) None = scanTags rest None.
Proof.
  induction x as [|c x IH]; cbn [noMarkup append scanTags]; [reflexivity|].
  intros H. apply andb_prop in H as [H Hx]. apply andb_prop in H as [Hlt _].
  destruct (Ascii.eqb c "<"); [discriminate Hlt | auto].
Qed.

Lemma scanTags_noMarkup_in (x rest acc : string) :
  noMarkup x = true ->
  scanTags (x ++ rest) (Some acc) = scanTags rest (Some (acc ++ x)).
Proof.
  revert acc; induction x as [|c x IH]; intros acc;
    cbn [noMarkup append scanTags].
  - now rewrite append_nil_r.
  - intros H. apply andb_prop in H as [H Hx].
    apply andb_prop in H as [_ Hgt].
    destruct (Ascii.eqb c ">"); [discriminate Hgt|].
    rewrite IH by exact Hx. rewrite append_assoc. reflexivity.
Qed.

Lemma textOf_textContent (tag ns local : string) (attrs : list Attr)
    (s : string) :
  textOf (Element tag ns local attrs (XAdESSignatureService.textContent s))
  = s.
Proof.
  unfold textOf, XAdESSignatureService.textContent. cbn [childrenOf].
  destruct (String.eqb_spec s EmptyString) as [->|_]; cbn;
    [reflexivity | apply append_nil_r].
Qed.

Ltac scan_step :=
  cbn [append scanTags Ascii.eqb Bool.eqb quot nl];
  first [ rewrite scanTags_noMarkup_in by assumption
        | rewrite scanTags_noMarkup_out by assumption ].


(** C6: every SignedInfo has exactly three References, in the order
    SignedProperties, KeyInfo, document; the first carries the
    canonicalization transform, the last the enveloped-signature transform,
    and the KeyInfo Reference has no Transforms element. This holds of the
    element built by [XAdESSignatureService.createSignedInfo] and of the
    markup written by [SRIXmlSigner.createSignedInfo] (for identifiers and
    digests without angle brackets, as the signer generates them). *)
Theorem signedInfo_references :
  (forall referenceId signedPropsId signedPropsDigest keyInfoId
          keyInfoDigest algorithm uuid envelopedDigest,
     exists r1 r2 r3,
       childElements "ds:Reference"
         (XAdESSignatureService.createSignedInfo referenceId signedPropsId
            signedPropsDigest keyInfoId keyInfoDigest algorithm uuid
            envelopedDigest) = [r1; r2; r3] /\
       (getAttribute "URI" r1 = Some ("#" ++ signedPropsId) /\
        getAttribute "Type" r1
        = Some XAdESSignatureService.TYPE_SIGNED_PROPERTIES /\
        transformsOf r1
        = Some [Some XAdESSignatureService.CANONICALIZATION_METHOD] /\
        digestOf r1 = [signedPropsDigest]) /\
       (getAttribute "URI" r2 = Some ("#" ++ keyInfoId) /\
        transformsOf r2 = None /\
        digestOf r2 = [keyInfoDigest]) /\
       (getAttribute "URI" r3 = Some EmptyString /\
        transformsOf r3
        = Some [Some XAdESSignatureService.ENVELOPED_SIGNATURE] /\
        digestOf r3 = [envelopedDigest])) /\
  (forall signedInfoId signedPropertiesRefId signedPropsId signedPropsDigest
          keyInfoId keyInfoDigest referenceId documentDigest,
     noMarkup signedInfoId = true -> noMarkup signedPropertiesRefId = true ->
     noMarkup signedPropsId = true -> noMarkup signedPropsDigest = true ->
     noMarkup keyInfoId = true -> noMarkup keyInfoDigest = true ->
     noMarkup referenceId = true -> noMarkup documentDigest = true ->
     referenceBlocks
       (tags (SRIXmlSigner.createSignedInfo signedInfoId
                signedPropertiesRefId signedPropsId signedPropsDigest
                keyInfoId keyInfoDigest referenceId documentDigest)) None
     = [ [ "ds:Reference Id=" ++ quot ++ signedPropertiesRefId ++ quot ++
           " Type=" ++ quot ++ "http://uri.etsi.org/01903#SignedProperties"
           ++ quot ++ " URI=" ++ quot ++ "#" ++ signedPropsId ++ quot;
           "ds:Transforms";
           "ds:Transform Algorithm=" ++ quot ++
           "http://www.w3.org/TR/2001/REC-xml-c14n-20010315" ++ quot ++ "/";
           "/ds:Transforms";
           "ds:DigestMethod Algorithm=" ++ quot ++ sha1Uri ++ quot;
           "/ds:DigestMethod"; "ds:DigestValue"; "/ds:DigestValue";
           "/ds:Reference" ];
         [ "ds:Reference URI=" ++ quot ++ "#" ++ keyInfoId ++ quot;
           "ds:DigestMethod Algorithm=" ++ quot ++ sha1Uri ++ quot;
           "/ds:DigestMethod"; "ds:DigestValue"; "/ds:DigestValue";
           "/ds:Reference" ];
         [ "ds:Reference Id=" ++ quot ++ referenceId ++ quot ++ " URI=" ++
           quot ++ "#comprobante" ++ quot;
           "ds:Transforms";
           "ds:Transform Algorithm=" ++ quot ++
           "http://www.w3.org/2000/09/xmldsig#enveloped-signature" ++ quot;
           "/ds:Transform"; "/ds:Transforms";
           "ds:DigestMethod Algorithm=" ++ quot ++ sha1Uri ++ quot;
           "/ds:DigestMethod"; "ds:DigestValue"; "/ds:DigestValue";
           "/ds:Reference" ] ]).
Proof.
  split.
  - intros. do 3 eexists. split; [reflexivity|].
    unfold digestOf, XAdESSignatureService.createReference.
    cbn -[textOf XAdESSignatureService.textContent].
    unfold XAdESSignatureService.ds. rewrite !textOf_textContent.
    repeat split; reflexivity.
  - intros. unfold tags, SRIXmlSigner.createSignedInfo.
    repeat scan_step.
    cbn [append scanTags Ascii.eqb Bool.eqb quot nl sha1Uri].
    rewrite !append_assoc.
    cbn [append referenceBlocks startsWith String.eqb Ascii.eqb Bool.eqb
         andb app].
    reflexivity.
Qed.

Lemma signedInfo_references_witness :
  referenceBlocks
    (tags (SRIXmlSigner.createSignedInfo "Signature-SignedInfo1"
             "SignedPropertiesID2" "Signature3-SignedProperties4"
             "2jmj7l5rSw0yVb/vlWAYkK/YBwk=" "Certificate5"
             "2jmj7l5rSw0yVb/vlWAYkK/YBwk=" "Reference-ID-6"
             "2jmj7l5rSw0yVb/vlWAYkK/YBwk=")) None
  = [ [ "ds:Reference Id=" ++ quot ++ "SignedPropertiesID2" ++ quot ++
        " Type=" ++ quot ++ "http://uri.etsi.org/01903#SignedProperties"
        ++ quot ++ " URI=" ++ quot ++ "#" ++ "Signature3-SignedProperties4"
        ++ quot;
        "ds:Transforms";
        "ds:Transform Algorithm=" ++ quot ++
        "http://www.w3.org/TR/2001/REC-xml-c14n-20010315" ++ quot ++ "/";
        "/ds:Transforms";
        "ds:DigestMethod Algorithm=" ++ quot ++ sha1Uri ++ quot;
        "/ds:DigestMethod"; "ds:DigestValue"; "/ds:DigestValue";
        "/ds:Reference" ];
      [ "ds:Reference URI=" ++ quot ++ "#" ++ "Certificate5" ++ quot;
        "ds:DigestMethod Algorithm=" ++ quot ++ sha1Uri ++ quot;
        "/ds:DigestMethod"; "ds:DigestValue"; "/ds:DigestValue";
        "/ds:Reference" ];
      [ "ds:Reference Id=" ++ quot ++ "Reference-ID-6" ++ quot ++ " URI=" ++
        quot ++ "#comprobante" ++ quot;
        "ds:Transforms";
        "ds:Transform Algorithm=" ++ quot ++
        "http://www.w3.org/2000/09/xmldsig#enveloped-signature" ++ quot;
        "/ds:Transform"; "/ds:Transforms";
        "ds:DigestMethod Algorithm=" ++ quot ++ sha1Uri ++ quot;
        "/ds:DigestMethod"; "ds:DigestValue"; "/ds:DigestValue";
        "/ds:Reference" ] ].
Proof.
  apply (proj2 signedInfo_references); reflexivity.
Defined.

(** C7 at its failing inputs: for the key with modulus 60491 (0xEC4B) and
    exponent 17, [SRIXmlSigner.createKeyInfoContent] writes the modulus with
    a leading zero byte (AOxL instead of 7Es=) and the literal exponent AQAB
    (instead of EQ==); for the modulus 3233 (0xCA1), whose hexadecimal form
    has an odd number of digits, [XAdESSignatureService.createRSAKeyValue]
    writes the single byte 0xCA (yg== instead of DKE=). *)
Theorem keyinfo_encoding_at_failing_keys :
  includes ("<ds:Modulus>" ++ nl ++ "AOxL" ++ nl ++ "</ds:Modulus>")
    (SRIXmlSigner.createKeyInfoContent "Certificate1" "MIIC" (Some 60491))
  = true /\
  includes "<ds:Exponent>AQAB</ds:Exponent>"
    (SRIXmlSigner.createKeyInfoContent "Certificate1" "MIIC" (Some 60491))
  = true /\
  encode64 (bytesBE 60491) = "7Es=" /\
  encode64 (bytesBE 17) = "EQ==" /\
  map textOf
    (childElements "ds:Modulus"
       (XAdESSignatureService.createRSAKeyValue 3233 65537))
  = [nl ++ "yg==" ++ nl] /\
  encode64 (bytesBE 3233) = "DKE=".
Proof. repeat split; reflexivity. Qed.

End SignerProofs.

Module SRIConnectorProofs.
Import SRIConnector.

Section Recepcion.

Variable maxRetries : Z.
Variable recepcion : nat -> SoapOutcome RawRecepcion.
Variable jitter : nat -> Z.
Variable base64 : string -> string.

Let sigue := sigue recepcion.
Let corrida := corrida recepcion.





End Recepcion.




Section Espera.

Variable maxRetries : Z.
Variable autorizacion : nat -> SoapOutcome RawAutorizacionResponse.
Variable jitter : nat -> Z.
Variable clock : nat -> Z.
Variables (clave : string) (maxEspera intervalo : Z).









End Espera.


End SRIConnectorProofs.

Module ClaveAccesoExtra.
Import ClaveAcceso StringFacts ClaveAccesoProofs.



(** X2: [calcularModulo11] throws on every string whose length is not 48,
    and on 48 digits it returns a single ASCII digit. *)
Theorem calcularModulo11_total (clave : string) :
  (String.length clave <> 48%nat ->
   calcularModulo11 clave = Throw (Modulo11Longitud (String.length clave))) /\
  (testDigitsN 48 clave = true ->
   exists d, calcularModulo11 clave = Ok (String d EmptyString) /\
             isDigit d = true).
Proof.
  split.
  - intros Hl. unfold calcularModulo11.
    destruct (Nat.eqb_spec (String.length clave) 48); [contradiction|].
    reflexivity.
  - intros H. destruct (calcularModulo11_digit clave H) as (dvf & Hc & Hd).
    apply testDigitsN_spec in Hd as [Hl Hd].
    destruct dvf as [|d [|? ?]]; try discriminate Hl.
    exists d. split; [exact Hc|].
    cbn [allDigits] in Hd. now rewrite andb_true_r in Hd.
Qed.

Lemma calcularModulo11_total_witness :
  exists d,
    calcularModulo11 "150120240117921467390011001001000000001123456781"
    = Ok (String d EmptyString) /\ isDigit d = true.
Proof.
  apply (proj2 (calcularModulo11_total
                  "150120240117921467390011001001000000001123456781")).
  reflexivity.
Defined.

(** The two loops compute the same sum on 48 digits. *)
Lemma sumaLoop_same (s : string) :
  String.length s = 48%nat -> allDigits s = true ->
  sumaLoop s 48 0 (Some 0) = InvoiceXMLBuilder.sumaLoop s 48 (Some 0) 0.
Proof.
  intros Hl Hd.
  do 48 (destruct s as [|? s]; [discriminate Hl|]).
  destruct s; [|discriminate Hl]. clear Hl.
  cbn [allDigits] in Hd.
  repeat match type of Hd with
         | (_ && _)%bool = true => apply andb_prop in Hd as [?H Hd]
         end.
  cbn [sumaLoop InvoiceXMLBuilder.sumaLoop charAt String.get parseIntOpt
       nth_error multiplicadores InvoiceXMLBuilder.factores
       List.length Nat.add Nat.modulo Nat.divmod fst snd Nat.sub].
  repeat match goal with
         | H : isDigit ?c = true |- _ =>
             let E := fresh in
             destruct (isDigit_cases c H) as (E & _ & _);
             rewrite !E; clear E H
         end.
  cbn [num_add num_mul]. f_equal. ring.
Qed.

(** X3: a key built by [InvoiceXMLBuilder.generateClaveAcceso] from fields
    that make up 48 digits has 49 digits and is accepted by
    [ClaveAccesoService.validate]. *)
Theorem generateClaveAcceso_validates (params : InvoiceXMLBuilder.ClaveParams)
    (r : Z) :
  testDigitsN 48 (InvoiceXMLBuilder.clave48 params r) = true ->
  testDigitsN 49 (InvoiceXMLBuilder.generateClaveAcceso params r) = true /\
  validate (InvoiceXMLBuilder.generateClaveAcceso params r) = true.
Proof.
  intros Hb.
  unfold InvoiceXMLBuilder.generateClaveAcceso.
  fold (InvoiceXMLBuilder.clave48 params r).
  set (base := InvoiceXMLBuilder.clave48 params r) in *.
  destruct (calcularModulo11_digit base Hb) as (dvf & Hc & Hd).
  assert (InvoiceXMLBuilder.calcularModulo11 base = dvf) as ->.
  { apply testDigitsN_spec in Hb as [Hl Hdig].
    unfold calcularModulo11 in Hc. rewrite Hl in Hc.
    cbn [Nat.eqb negb] in Hc.
    assert (toString (digitoDe (residuoDe base)) = dvf) as <- by congruence.
    unfold InvoiceXMLBuilder.calcularModulo11, residuoDe, digitoDe.
    rewrite Hl, <- (sumaLoop_same base Hl Hdig).
    destruct (num_sub (Some 11)
                (num_rem (sumaLoop base 48 0 (Some 0)) (Some 11)))
      as [z|]; [|reflexivity].
    destruct z as [|q|q]; try reflexivity.
    do 4 (destruct q as [q|q|]; try reflexivity). }
  pose proof (testDigitsN_append 48 1 _ _ Hb Hd) as Hk.
  change (48 + 1)%nat with 49%nat in Hk.
  split; [exact Hk | apply validate_append; assumption].
Qed.

Lemma generateClaveAcceso_validates_witness :
  testDigitsN 49
    (InvoiceXMLBuilder.generateClaveAcceso InvoiceXMLBuilder.vector_clave 0)
  = true /\
  validate
    (InvoiceXMLBuilder.generateClaveAcceso InvoiceXMLBuilder.vector_clave 0)
  = true.
Proof.
  apply (generateClaveAcceso_validates InvoiceXMLBuilder.vector_clave 0).
  reflexivity.
Defined.

(** X4: [formatSecuencial] accepts exactly the strings of one to nine
    digits, returns nine digits for them, and throws on everything else. *)
Theorem formatSecuencial_nine_digits (s : string) :
  (validateSecuencial s = true ->
   exists r, formatSecuencial s = Ok r /\ testDigitsN 9 r = true) /\
  (validateSecuencial s = false ->
   formatSecuencial s = Throw SecuencialInvalido).
Proof.
  unfold formatSecuencial. split; intros H; rewrite H; cbn [negb];
    [|reflexivity].
  eexists; split; [reflexivity|].
  unfold validateSecuencial in H.
  apply andb_prop in H as [H Hd]. apply andb_prop in H as [_ Hl].
  apply Nat.leb_le in Hl. apply padStart_digits; assumption.
Qed.

Lemma formatSecuencial_nine_digits_witness :
  exists r, formatSecuencial "42" = Ok r /\ testDigitsN 9 r = true.
Proof.
  apply (proj1 (formatSecuencial_nine_digits "42")). reflexivity.
Defined.


Lemma substring_prefix (x post : string) :
  String.substring 0 (String.length x) (x ++ post) = x.
Proof. induction x; cbn; [destruct post; reflexivity | congruence]. Qed.

Lemma substring_at (pre x post : string) (a b : nat) :
  String.length pre = a -> (a + String.length x)%nat = b ->
  substring a b (pre ++ x ++ post) = x.
Proof.
  intros <- <-. unfold substring.
  replace (String.length pre + String.length x - String.length pre)%nat
    with (String.length x) by lia.
  rewrite substring_append_right. apply substring_prefix.
Qed.

Lemma digitsFuel_length (fuel : nat) :
  forall n acc,
  (String.length acc <= String.length (digitsFuel fuel n acc))%nat /\
  (fuel <> 0%nat ->
   (String.length acc < String.length (digitsFuel fuel n acc))%nat).
Proof.
  induction fuel as [|fuel IH]; intros n acc; cbn [digitsFuel].
  - split; [lia | congruence].
  - destruct (n <? 10).
    + cbn [String.length]. split; lia.
    + destruct (IH (n / 10) (String (digitChar (n mod 10)) acc)) as [H _].
      cbn [String.length] in H. split; lia.
Qed.

(** A number that prints as "1" or "2" is 1 or 2. *)
Lemma test12_toString (a : number) :
  test12 (toString a) = true -> parseInt (toString a) = a.
Proof.
  unfold test12. rewrite orb_true_iff, !String.eqb_eq.
  destruct a as [n|]; cbn [toString]; [|intros [H|H]; discriminate H].
  intros H.
  assert (String.length (Z_toString n) = 1%nat) as Hlen
    by (destruct H as [-> | ->]; reflexivity).
  unfold Z_toString in H, Hlen |- *.
  destruct (Z.ltb_spec n 0) as [Hneg|Hpos].
  - destruct H as [H|H]; discriminate H.
  - cbn [digitsFuel] in H, Hlen |- *.
    destruct (Z.ltb_spec n 10) as [Hlt|Hge].
    + destruct n as [|p|p]; [| |lia].
      * destruct H as [H|H]; discriminate H.
      * do 4 (try (destruct p as [p|p|]; try lia));
          destruct H as [H|H]; try discriminate H; reflexivity.
    + exfalso.
      assert (3 <= Z.log2 n) by (apply Z.log2_le_pow2; lia).
      destruct (Z.to_nat (Z.log2 n)) as [|f] eqn:Ef; [lia|].
      destruct (digitsFuel_length (S f) (n / 10)
                  (String (digitChar (n mod 10)) EmptyString)) as [_ Hl].
      specialize (Hl ltac:(congruence)). cbn [String.length] in Hl. lia.
Qed.

Section ParseGenerate.

Variable Date_parse : string -> Date.

(** X5: [parse] reads back from a generated key the fields it was made of:
    document type, RUC, environment, establishment, emission point, the
    sequence number padded to nine digits, the random code and the emission
    type (for a date part of eight characters and a sequence number of at
    most nine characters, so that the fields sit at their columns). *)
Theorem parse_generate (p : ClaveAccesoParams) (r : Z) (k fecha : string) :
  generate Date_parse p r = Ok k ->
  formatFecha Date_parse (fechaEmision p) = Ok fecha ->
  String.length fecha = 8%nat ->
  (String.length (secuencial p) <= 9)%nat ->
  exists q,
    parse k = Ok q /\
    parsed_tipoComprobante q = tipoComprobante p /\
    parsed_ruc q = ruc p /\
    parsed_ambiente q = ambiente p /\
    parsed_establecimiento q = establecimiento p /\
    parsed_puntoEmision q = puntoEmision p /\
    parsed_secuencial q = padStart 9 (secuencial p) /\
    parsed_codigoNumerico q = generateCodigoNumerico r /\
    parsed_tipoEmision q = tipoEmision p.
Proof.
  intros Hg Hf Hf8 Hs9.
  destruct (generate_Ok_valid Date_parse p r k Hg) as (Hl49 & _ & Hval).
  destruct (generate_Ok_inv Date_parse p r k Hg)
    as (f' & dvf & Hv & Hf' & -> & Hb & _ & _).
  rewrite Hf in Hf'. injection Hf' as <-.
  destruct (validateParams_accepts p Hv)
    as (Hruc & Hamb & Hemi & Hest & Hpto & _ & Htipo).
  apply testRuc_digits, testDigitsN_spec in Hruc as [Lruc _].
  apply tiposValidos_digits, testDigitsN_spec in Htipo as [Ltipo _].
  apply testDigitsN_spec in Hest as [Lest _].
  apply testDigitsN_spec in Hpto as [Lpto _].
  pose proof (test12_digits _ Hamb) as Lamb.
  apply testDigitsN_spec in Lamb as [Lamb _].
  pose proof (test12_digits _ Hemi) as Lemi.
  apply testDigitsN_spec in Lemi as [Lemi _].
  assert (padStart 2 (tipoComprobante p) = tipoComprobante p) as Etipo
    by (unfold padStart; rewrite Ltipo; reflexivity).
  assert (padStart 13 (ruc p) = ruc p) as Eruc
    by (unfold padStart; rewrite Lruc; reflexivity).
  assert (padStart 3 (establecimiento p) = establecimiento p) as Eest
    by (unfold padStart; rewrite Lest; reflexivity).
  assert (padStart 3 (puntoEmision p) = puntoEmision p) as Epto
    by (unfold padStart; rewrite Lpto; reflexivity).
  assert (String.length (padStart 9 (secuencial p)) = 9%nat) as Lsec
    by (unfold padStart; rewrite length_append, length_repeatChar; lia).
  apply testDigitsN_spec in Hb as [Lbase _].
  unfold claveSinDigito in Lbase, Hval, Hl49 |- *.
  rewrite Etipo, Eruc, Eest, Epto in *.
  set (sec := padStart 9 (secuencial p)) in *.
  set (cod := generateCodigoNumerico r) in *.
  set (amb := toString (ambiente p)) in *.
  set (emi := toString (tipoEmision p)) in *.
  assert (String.length cod = 8%nat) as Lcod.
  { rewrite !length_append in Lbase. lia. }
  unfold parse. rewrite Hval. cbn [negb].
  eexists. split; [reflexivity|].
  cbn [parsed_tipoComprobante parsed_ruc parsed_ambiente
       parsed_establecimiento parsed_puntoEmision parsed_secuencial
       parsed_codigoNumerico parsed_tipoEmision].
  rewrite !append_assoc.
  repeat split.
  - apply (substring_at fecha); [exact Hf8 | lia].
  - rewrite <- (append_assoc fecha).
    apply substring_at; [rewrite length_append | ]; lia.
  - rewrite <- (append_assoc (tipoComprobante p)),
      <- (append_assoc fecha).
    rewrite substring_at; [apply test12_toString; exact Hamb | |];
      rewrite ?length_append; fold amb; lia.
  - rewrite <- (append_assoc (ruc p)), <- (append_assoc (tipoComprobante p)),
      <- (append_assoc fecha).
    apply substring_at; rewrite ?length_append; lia.
  - rewrite <- (append_assoc amb), <- (append_assoc (ruc p)),
      <- (append_assoc (tipoComprobante p)), <- (append_assoc fecha).
    apply substring_at; rewrite ?length_append; lia.
  - rewrite <- (append_assoc (establecimiento p)), <- (append_assoc amb),
      <- (append_assoc (ruc p)), <- (append_assoc (tipoComprobante p)),
      <- (append_assoc fecha).
    apply substring_at; rewrite ?length_append; lia.
  - rewrite <- (append_assoc (puntoEmision p)),
      <- (append_assoc (establecimiento p)), <- (append_assoc amb),
      <- (append_assoc (ruc p)), <- (append_assoc (tipoComprobante p)),
      <- (append_assoc fecha).
    apply substring_at; rewrite ?length_append; lia.
  - rewrite <- (append_assoc sec), <- (append_assoc (puntoEmision p)),
      <- (append_assoc (establecimiento p)), <- (append_assoc amb),
      <- (append_assoc (ruc p)), <- (append_assoc (tipoComprobante p)),
      <- (append_assoc fecha).
    rewrite substring_at; [apply test12_toString; exact Hemi | |];
      rewrite ?length_append; fold emi; lia.
Qed.

End ParseGenerate.

Lemma parse_generate_witness :
  exists q,
    parse "1501202401179214673900110010010000000011234567810" = Ok q /\
    parsed_tipoComprobante q = "01" /\
    parsed_ruc q = "1792146739001" /\
    parsed_ambiente q = Some 1 /\
    parsed_establecimiento q = "001" /\
    parsed_puntoEmision q = "001" /\
    parsed_secuencial q = padStart 9 "000000001" /\
    parsed_codigoNumerico q = generateCodigoNumerico 2345678 /\
    parsed_tipoEmision q = Some 1.
Proof.
  apply (parse_generate (fun _ => Invalid)
           (vector_params (FechaString "15/01/2024")) 2345678
           "1501202401179214673900110010010000000011234567810" "15012024").
  - reflexivity.
  - reflexivity.
  - reflexivity.
  - cbn. lia.
Defined.

End ClaveAccesoExtra.

Module SRIConnectorExtra.
Import SRIConnector StringFacts.

(** X6: for a jitter below one second, the pause before a retry lies between
    1 and 31 seconds, from the sixth attempt on it is at least 30 seconds,
    and up to the fifth attempt the pause before the next retry is strictly
    longer than the one before this one, whatever the two jitters are. *)
Theorem retry_delay_bounds (jitter : nat -> Z) (attempt : Z) (w w' : World) :
  1 <= attempt ->
  0 <= jitter (draws w) < 1000 -> 0 <= jitter (draws w') < 1000 ->
  1000 <= fst (getRetryDelay jitter attempt w) < 31000 /\
  (6 <= attempt -> 30000 <= fst (getRetryDelay jitter attempt w)) /\
  (attempt <= 5 ->
   fst (getRetryDelay jitter attempt w)
   < fst (getRetryDelay jitter (attempt + 1) w')).
Proof.
  intros Ha Hj Hj'. unfold getRetryDelay. cbn [fst].
  assert (1 <= 2 ^ (attempt - 1))
    by (change 1 with (2 ^ 0) at 1; apply Z.pow_le_mono_r; lia).
  split; [lia|]. split.
  - intros H6.
    assert (2 ^ 5 <= 2 ^ (attempt - 1)) by (apply Z.pow_le_mono_r; lia).
    change (2 ^ 5) with 32 in *. lia.
  - intros H5.
    replace (attempt + 1 - 1) with (Z.succ (attempt - 1)) by lia.
    rewrite Z.pow_succ_r by lia.
    assert (2 ^ (attempt - 1) <= 2 ^ 4) by (apply Z.pow_le_mono_r; lia).
    change (2 ^ 4) with 16 in *. lia.
Qed.

Lemma retry_delay_bounds_witness :
  1000 <= fst (getRetryDelay (fun _ => 7) 2 initialWorld) < 31000 /\
  (6 <= 2 -> 30000 <= fst (getRetryDelay (fun _ => 7) 2 initialWorld)) /\
  (2 <= 5 ->
   fst (getRetryDelay (fun _ => 7) 2 initialWorld)
   < fst (getRetryDelay (fun _ => 7) (2 + 1) initialWorld)).
Proof.
  apply (retry_delay_bounds (fun _ => 7) 2 initialWorld initialWorld);
    cbn; lia.
Defined.

Lemma lowerChar_idem (c : ascii) : lowerChar (lowerChar c) = lowerChar c.
Proof. destruct c as [[] [] [] [] [] [] [] []]; reflexivity. Qed.

Lemma toLowerCase_idem (s : string) :
  toLowerCase (toLowerCase s) = toLowerCase s.
Proof.
  induction s as [|c s IH]; cbn [toLowerCase]; [reflexivity|].
  now rewrite lowerChar_idem, IH.
Qed.

(** X7: [isRetryableError] does not depend on the case of the message; an
    error whose HTTP status is 500, 502, 503 or 504 is retryable whatever
    else it carries; and an error without message, response and code is
    not. *)
Theorem isRetryableError_cases (e : JSError) :
  isRetryableError (withMessage e (option_map toLowerCase (message e)))
  = isRetryableError e /\
  (forall status, response_status e = Some status ->
     In status [500; 502; 503; 504] -> isRetryableError e = true) /\
  (message e = None -> response_status e = None -> code e = None ->
   isRetryableError e = false).
Proof.
  split; [|split].
  - unfold isRetryableError, withMessage.
    cbn [message response_status code].
    destruct (message e) as [m|]; cbn [option_map];
      [rewrite toLowerCase_idem|]; reflexivity.
  - intros status Hs Hin. unfold isRetryableError. rewrite Hs.
    assert (existsb (Z.eqb status) [500; 502; 503; 504] = true) as ->.
    { cbn [In] in Hin. destruct Hin as [<-|[<-|[<-|[<-|[]]]]]; reflexivity. }
    destruct (_ || _)%bool; reflexivity.
  - intros Hm Hr Hc. unfold isRetryableError. rewrite Hm, Hr, Hc.
    reflexivity.
Qed.

Lemma isRetryableError_cases_witness :
  isRetryableError
    {| message := Some "Bad Gateway"; response_status := Some 502;
       code := None |} = true.
Proof.
  apply (proj1 (proj2 (isRetryableError_cases
           {| message := Some "Bad Gateway"; response_status := Some 502;
              code := None |})) 502).
  - reflexivity.
  - cbn. tauto.
Defined.

Section Retries.

Variable maxRetries : Z.
Variable recepcion : nat -> SoapOutcome RawRecepcion.
Variable jitter : nat -> Z.
Variable base64 : string -> string.

Let loop := validarLoop maxRetries recepcion jitter base64.

(** A run in which every call ends in a retryable fault. *)
Lemma validarLoop_all_faults (xml : string) (n : nat) :
  forall attempt lastError w,
  attempt + Z.of_nat n = maxRetries + 1 ->
  (forall i, (recepcionCalls w <= i < recepcionCalls w + n)%nat ->
     exists e, recepcion i = SoapFault e /\ isRetryableError e = true) ->
  exists w',
    loop xml n attempt lastError w
    = (Throw (FalloValidar maxRetries
                (match n with
                 | O => lastError
                 | S m =>
                     match recepcion (recepcionCalls w + m) with
                     | SoapFault e => Some e
                     | SoapResult _ => None
                     end
                 end)), w') /\
    recepcionCalls w' = (recepcionCalls w + n)%nat /\
    sleepCount (trace w') = (sleepCount (trace w) + (n - 1))%nat.
Proof.
  unfold loop.
  induction n as [|n IH]; intros attempt lastError w Ha Hf;
    cbn [validarLoop].
  - eexists. split; [reflexivity|]. split; lia.
  - unfold validarComprobanteAsync.
    destruct (Hf (recepcionCalls w) ltac:(lia)) as (e & He & Hre).
    rewrite He, Hre.
    destruct (Z.ltb_spec attempt maxRetries) as [Hlt|Hge].
    + unfold getRetryDelay.
      match goal with
      | |- context [validarLoop _ _ _ _ _ n ?a ?le ?w1] =>
          destruct (IH a le w1) as (w' & Hrun & Hcalls & Hsl)
      end.
      * lia.
      * intros i Hi. cbn [recepcionCalls sleep] in Hi. apply Hf. lia.
      * exists w'. cbn [recepcionCalls sleep trace] in Hrun, Hcalls, Hsl.
        destruct n as [|m]; [lia|].
        replace (recepcionCalls w + S m)%nat
          with (S (recepcionCalls w) + m)%nat by lia.
        split; [exact Hrun|]. split; [lia|].
        rewrite Hsl. unfold sleepCount. cbn [filter List.length]. lia.
    + assert (n = 0%nat) as -> by lia.
      cbn [validarLoop]. eexists. split.
      * rewrite Nat.add_0_r, He. reflexivity.
      * cbn [recepcionCalls trace]. unfold sleepCount.
        cbn [filter List.length]. split; lia.
Qed.

(** A run in which every call is answered with a state that is neither
    RECIBIDA nor DEVUELTA. *)
Lemma validarLoop_all_untyped (xml : string) (n : nat) :
  forall attempt lastError w,
  (forall i, (recepcionCalls w <= i < recepcionCalls w + n)%nat ->
     exists raw, recepcion i = SoapResult raw /\
       ~ recibidaODevuelta (processValidarResponse raw)) ->
  exists w',
    loop xml n attempt lastError w
    = (Throw (FalloValidar maxRetries lastError), w') /\
    recepcionCalls w' = (recepcionCalls w + n)%nat /\
    sleepCount (trace w') = sleepCount (trace w).
Proof.
  unfold loop.
  induction n as [|n IH]; intros attempt lastError w Hf; cbn [validarLoop].
  - eexists. split; [reflexivity|]. split; lia.
  - unfold validarComprobanteAsync.
    destruct (Hf (recepcionCalls w) ltac:(lia)) as (raw & Hr & Hn).
    rewrite Hr.
    destruct (String.eqb_spec (estado (processValidarResponse raw))
                "RECIBIDA") as [E|_]; [exfalso; apply Hn; left; exact E|].
    destruct (String.eqb_spec (estado (processValidarResponse raw))
                "DEVUELTA") as [E|_]; [exfalso; apply Hn; right; exact E|].
    match goal with
    | |- context [validarLoop _ _ _ _ _ n ?a ?le ?w1] =>
        destruct (IH a le w1) as (w' & Hrun & Hcalls & Hsl)
    end.
    + intros i Hi. cbn [recepcionCalls] in Hi. apply Hf. lia.
    + exists w'. cbn [recepcionCalls trace] in Hrun, Hcalls, Hsl.
      split; [exact Hrun|]. split; [lia|].
      rewrite Hsl. unfold sleepCount. cbn [filter]. reflexivity.
Qed.

(** X8: when each of the [maxRetries] calls ends in a retryable fault,
    [validarComprobante] makes exactly [maxRetries] calls with a pause
    between two calls (none after the last) and throws the final error that
    carries the last fault; with no attempt allowed it throws without
    calling. *)
Theorem validarComprobante_exhausts_retries (xml : string) :
  (1 <= maxRetries ->
   (forall i, (i < Z.to_nat maxRetries)%nat ->
      exists e, recepcion i = SoapFault e /\ isRetryableError e = true) ->
   exists e w,
     validarComprobante maxRetries recepcion jitter base64 xml initialWorld
     = (Throw (FalloValidar maxRetries (Some e)), w) /\
     recepcion (Z.to_nat maxRetries - 1) = SoapFault e /\
     recepcionCalls w = Z.to_nat maxRetries /\
     sleepCount (trace w) = (Z.to_nat maxRetries - 1)%nat) /\
  (maxRetries <= 0 ->
   validarComprobante maxRetries recepcion jitter base64 xml initialWorld
   = (Throw (FalloValidar maxRetries None), initialWorld)).
Proof.
  split.
  - intros Hm Hf. unfold validarComprobante.
    destruct (validarLoop_all_faults xml (Z.to_nat maxRetries) 1 None
                initialWorld) as (w & Hrun & Hcalls & Hsl).
    + lia.
    + intros i Hi. cbn [recepcionCalls initialWorld] in Hi. apply Hf. lia.
    + destruct (Z.to_nat maxRetries) as [|m] eqn:Em; [lia|].
      cbn [recepcionCalls initialWorld trace Nat.add] in Hrun, Hcalls, Hsl.
      destruct (Hf m ltac:(lia)) as (e & He & _).
      rewrite He in Hrun. exists e, w.
      replace (S m - 1)%nat with m by lia.
      split; [exact Hrun|]. split; [exact He|]. split; [lia|].
      rewrite Hsl. cbn. lia.
  - intros Hm. unfold validarComprobante.
    replace (Z.to_nat maxRetries) with 0%nat by lia. reflexivity.
Qed.

(** X9: a response whose state is neither RECIBIDA nor DEVUELTA is not
    returned: the loop goes to the next attempt without a pause, and when
    all [maxRetries] responses are of that kind [validarComprobante] throws
    the final error, with no fault to report. *)
Theorem validarComprobante_other_state_retried (xml : string) :
  (forall i, (i < Z.to_nat maxRetries)%nat ->
     exists raw, recepcion i = SoapResult raw /\
       ~ recibidaODevuelta (processValidarResponse raw)) ->
  exists w,
    validarComprobante maxRetries recepcion jitter base64 xml initialWorld
    = (Throw (FalloValidar maxRetries None), w) /\
    recepcionCalls w = Z.to_nat maxRetries /\
    sleepCount (trace w) = 0%nat.
Proof.
  intros Hf. unfold validarComprobante.
  destruct (validarLoop_all_untyped xml (Z.to_nat maxRetries) 1 None
              initialWorld) as (w & Hrun & Hcalls & Hsl).
  - intros i Hi. cbn [recepcionCalls initialWorld] in Hi. apply Hf. lia.
  - exists w. cbn [recepcionCalls initialWorld trace] in Hcalls, Hsl.
    split; [exact Hrun|]. split; [lia | exact Hsl].
Qed.

End Retries.

Lemma validarComprobante_exhausts_retries_witness :
  exists e w,
    validarComprobante 3 recepcion_caida (fun _ => 7) (fun s => s)
      "<factura/>" initialWorld
    = (Throw (FalloValidar 3 (Some e)), w) /\
    recepcion_caida (Z.to_nat 3 - 1) = SoapFault e /\
    recepcionCalls w = Z.to_nat 3 /\
    sleepCount (trace w) = (Z.to_nat 3 - 1)%nat.
Proof.
  apply (proj1 (validarComprobante_exhausts_retries 3 recepcion_caida
                  (fun _ => 7) (fun s => s) "<factura/>")).
  - lia.
  - intros i _. exists errorTimeout. split; reflexivity.
Defined.

Lemma validarComprobante_other_state_retried_witness :
  exists w,
    validarComprobante 3 recepcion_en_proceso (fun _ => 7) (fun s => s)
      "<factura/>" initialWorld
    = (Throw (FalloValidar 3 None), w) /\
    recepcionCalls w = Z.to_nat 3 /\
    sleepCount (trace w) = 0%nat.
Proof.
  apply (validarComprobante_other_state_retried 3 recepcion_en_proceso
           (fun _ => 7) (fun s => s) "<factura/>").
  intros i _. eexists. split; [reflexivity|].
  intros [H|H]; discriminate H.
Defined.

End SRIConnectorExtra.

Module SRIC14NExtra.
Import SRIC14N StringFacts SRIC14NProofs.

Lemma indexOfChar_app_None (c : ascii) (a b : string) :
  indexOfChar c a = None -> indexOfChar c b = None ->
  indexOfChar c (a ++ b) = None.
Proof.
  induction a as [|x a IH]; cbn [append indexOfChar]; [auto|].
  destruct (Ascii.eqb x c); [discriminate|].
  destruct (indexOfChar c a); [discriminate|].
  intros _ Hb. rewrite (IH eq_refl Hb). reflexivity.
Qed.

Lemma flatMap_free (f : ascii -> string) (c : ascii) :
  (forall x, indexOfChar c (f x) = None) ->
  forall s, indexOfChar c (flatMap f s) = None.
Proof.
  intros Hf. induction s as [|x s IH]; cbn [flatMap]; [reflexivity|].
  apply indexOfChar_app_None; auto.
Qed.

(** X10: the canonical form of a text node contains no less-than sign, no
    greater-than sign and no CR; the escaped form of an attribute value
    contains no less-than sign, no double quote, no tab, no newline and no
    CR. *)
Theorem escaped_output_is_free_of_specials (v : string) :
  (indexOfChar "<" (canonicalizeText v) = None /\
   indexOfChar ">" (canonicalizeText v) = None /\
   indexOfChar "013" (canonicalizeText v) = None) /\
  (indexOfChar "<" (escapeAttributeValue v) = None /\
   indexOfChar "034" (escapeAttributeValue v) = None /\
   indexOfChar "009" (escapeAttributeValue v) = None /\
   indexOfChar "010" (escapeAttributeValue v) = None /\
   indexOfChar "013" (escapeAttributeValue v) = None).
Proof.
  rewrite canonicalizeText_flatMap, escapeAttributeValue_flatMap.
  repeat split; apply flatMap_free;
    intros x; destruct x as [[] [] [] [] [] [] [] []]; reflexivity.
Qed.

(** X11: the namespaces inherited from the ancestors never reach the
    output: a node canonicalizes to the same text under any two sets of
    inherited namespaces (only the declarations written on an element itself
    are emitted). *)
Theorem inherited_namespaces_do_not_matter
    (localeCompare : string -> string -> Z) :
  forall (node : Node) (inherited1 inherited2 : Obj),
  canonicalizeNode localeCompare node inherited1
  = canonicalizeNode localeCompare node inherited2.
Proof.
  fix IH 1.
  intros [tagName ns localName attrs children|v|] inh1 inh2;
    cbn [canonicalizeNode]; try reflexivity.
  generalize (spread inh1 (extractNamespaces attrs)).
  generalize (spread inh2 (extractNamespaces attrs)).
  intros m2 m1.
  do 6 f_equal.
  induction children as [|child rest IHc]; [reflexivity|].
  rewrite (IH child m1 m2), IHc. reflexivity.
Qed.

Lemma sortInsert_perm {A : Type} (cmp : A -> A -> Z) (x : A) (l : list A) :
  Permutation (sortInsert cmp x l) (x :: l).
Proof.
  induction l as [|y l IH]; cbn [sortInsert]; [reflexivity|].
  destruct (cmp x y <? 0); [reflexivity|].
  rewrite IH. apply perm_swap.
Qed.

Lemma sort_fold_perm {A : Type} (cmp : A -> A -> Z) (l acc : list A) :
  Permutation (fold_left (fun acc x => sortInsert cmp x acc) l acc)
              (acc ++ l)%list.
Proof.
  revert acc; induction l as [|x l IH]; intros acc; cbn [fold_left].
  - now rewrite app_nil_r.
  - rewrite IH, sortInsert_perm. apply Permutation_middle.
Qed.

Lemma sort_perm {A : Type} (cmp : A -> A -> Z) (l : list A) :
  Permutation (sort cmp l) l.
Proof. unfold sort. apply (sort_fold_perm cmp l []). Qed.

(** X12: [getSortedAttributes] returns the attributes whose name does not
    start with [xmlns], each exactly once, whatever the collation does; none
    of them is lost and none is duplicated by the sort. *)
Theorem getSortedAttributes_permutation
    (localeCompare : string -> string -> Z) (attrs : list Attr) :
  Permutation
    (getSortedAttributes localeCompare attrs)
    (filter (fun attr => negb (startsWith "xmlns" (name attr))) attrs) /\
  (forall a, In a (getSortedAttributes localeCompare attrs) <->
             In a attrs /\ startsWith "xmlns" (name a) = false).
Proof.
  assert (Permutation
            (getSortedAttributes localeCompare attrs)
            (filter (fun attr => negb (startsWith "xmlns" (name attr)))
                    attrs)) as HP
    by (unfold getSortedAttributes; apply sort_perm).
  split; [exact HP|].
  intros a. split.
  - intros Hin. apply (Permutation_in _ HP) in Hin.
    apply filter_In in Hin as [Hin Hn]. split; [exact Hin|].
    now apply negb_true_iff in Hn.
  - intros [Hin Hn]. apply (Permutation_in _ (Permutation_sym HP)).
    apply filter_In. split; [exact Hin | now apply negb_true_iff].
Qed.

Lemma removeSignatures_none :
  forall node, hasSignature node = false -> removeSignatures node = node.
Proof.
  fix IH 1.
  intros [tagName ns localName attrs children|v|] H;
    cbn [removeSignatures]; try reflexivity.
  f_equal.
  cbn [hasSignature] in H. apply orb_false_iff in H as [_ H].
  induction children as [|child rest IHc]; [reflexivity|].
  apply orb_false_iff in H as [Hc Hr].
  assert (isSignature child = false) as ->.
  { destruct child; cbn [hasSignature] in Hc;
      [apply orb_false_iff in Hc as [Hc _]; exact Hc | reflexivity..]. }
  rewrite (IH child Hc), (IHc Hr). reflexivity.
Qed.

(** X13: on a document without any [ds:Signature] element
    [canonicalizeForEnvelopedDigest] gives the same text as [canonicalize];
    on a document whose root is itself a [ds:Signature] it throws. *)
Theorem enveloped_digest_without_signature
    (localeCompare : string -> string -> Z) (doc : Node) :
  (hasSignature doc = false ->
   canonicalizeForEnvelopedDigest localeCompare doc
   = Ok (canonicalize localeCompare doc)) /\
  (isSignature doc = true ->
   canonicalizeForEnvelopedDigest localeCompare doc
   = Throw TypeErrorNullNode).
Proof.
  unfold canonicalizeForEnvelopedDigest, canonicalize. split; intros H.
  - assert (isSignature doc = false) as ->.
    { destruct doc; cbn [hasSignature] in H;
        [apply orb_false_iff in H as [H _]; exact H | reflexivity..]. }
    rewrite (removeSignatures_none doc H). reflexivity.
  - rewrite H. reflexivity.
Qed.

Lemma enveloped_digest_without_signature_witness :
  canonicalizeForEnvelopedDigest codeCompare doc_xmlns_first
  = Ok (canonicalize codeCompare doc_xmlns_first).
Proof.
  apply (proj1 (enveloped_digest_without_signature codeCompare
                  doc_xmlns_first)).
  reflexivity.
Defined.

End SRIC14NExtra.

Module EncodingExtra.
Import SRIC14N SignatureView StringFacts SignerProofs.

Lemma bytesFuel_zero (fuel : nat) (acc : list Z) : bytesFuel fuel 0 acc = acc.
Proof. destruct fuel; reflexivity. Qed.

Lemma pow2_succ (f : nat) : 2 ^ Z.of_nat (S f) = 2 * 2 ^ Z.of_nat f.
Proof. rewrite Nat2Z.inj_succ, Z.pow_succ_r by lia. reflexivity. Qed.

Lemma bytesFuel_value (fuel : nat) :
  forall n acc, 0 <= n < 2 ^ Z.of_nat fuel ->
  fold_left (fun a b => a * 256 + b) (bytesFuel fuel n acc) 0
  = fold_left (fun a b => a * 256 + b) acc n.
Proof.
  induction fuel as [|fuel IH]; intros n acc Hn.
  - cbn in Hn. assert (n = 0) as -> by lia. reflexivity.
  - cbn [bytesFuel]. destruct (Z.leb_spec n 0) as [Hz|Hp].
    + assert (n = 0) as -> by lia. reflexivity.
    + rewrite pow2_succ in Hn. rewrite IH.
      * cbn [fold_left]. f_equal.
        pose proof (Z.div_mod n 256 ltac:(lia)). lia.
      * split; [apply Z.div_pos; lia|].
        apply Z.div_lt_upper_bound; lia.
Qed.

Lemma bytesFuel_range (fuel : nat) :
  forall n acc, 0 <= n ->
  Forall (fun b => 0 <= b < 256) acc ->
  Forall (fun b => 0 <= b < 256) (bytesFuel fuel n acc).
Proof.
  induction fuel as [|fuel IH]; intros n acc Hn Hacc; cbn [bytesFuel];
    [exact Hacc|].
  destruct (n <=? 0); [exact Hacc|].
  apply IH; [apply Z.div_pos; lia|].
  constructor; [apply Z.mod_pos_bound; lia | exact Hacc].
Qed.

Lemma bytesFuel_head (fuel : nat) :
  forall n acc, 0 < n < 2 ^ Z.of_nat fuel ->
  exists b rest, bytesFuel fuel n acc = b :: rest /\ 0 < b < 256.
Proof.
  induction fuel as [|fuel IH]; intros n acc Hn; [cbn in Hn; lia|].
  cbn [bytesFuel]. destruct (Z.leb_spec n 0) as [?|_]; [lia|].
  rewrite pow2_succ in Hn.
  destruct (Z.ltb_spec n 256) as [Hlt|Hge].
  - rewrite Z.div_small, Z.mod_small by lia. rewrite bytesFuel_zero.
    exists n, acc. split; [reflexivity | lia].
  - apply IH. split.
    + apply Z.div_str_pos; lia.
    + apply Z.div_lt_upper_bound; lia.
Qed.

Lemma log2_fuel (n : Z) : 0 < n -> n < 2 ^ Z.of_nat (S (Z.to_nat (Z.log2 n))).
Proof.
  intros Hn. pose proof (Z.log2_nonneg n).
  rewrite Nat2Z.inj_succ, Z2Nat.id by lia.
  apply Z.log2_spec. exact Hn.
Qed.

(** What [bytesBE] is: for [n > 0] a non-empty sequence of bytes whose first
    byte is not zero and whose big-endian value is [n]. *)
Lemma bytesBE_minimal (n : Z) :
  0 < n ->
  valueBE (bytesBE n) = n /\
  Forall (fun b => 0 <= b < 256) (bytesBE n) /\
  exists b rest, bytesBE n = b :: rest /\ 0 < b < 256.
Proof.
  intros Hn. pose proof (log2_fuel n Hn) as Hf. unfold bytesBE, valueBE.
  split; [|split].
  - rewrite bytesFuel_value by lia. reflexivity.
  - apply bytesFuel_range; [lia | constructor].
  - apply bytesFuel_head. lia.
Qed.

Lemma land_255_unsigned (b : Z) : 0 <= b < 256 -> Z.land b 255 = b.
Proof.
  intros Hb. change 255 with (Z.ones 8).
  rewrite Z.land_ones by lia. apply Z.mod_small. exact Hb.
Qed.

Lemma land_255_signed (b : Z) : 128 <= b < 256 -> Z.land (b - 256) 255 = b.
Proof.
  intros Hb. change 255 with (Z.ones 8).
  rewrite Z.land_ones by lia. change (2 ^ 8) with 256.
  replace (b - 256) with (b + (-1) * 256) by lia.
  rewrite Z.mod_add by lia. apply Z.mod_small. lia.
Qed.

Lemma unsigned_of_signed (l : list Z) :
  Forall (fun b => 0 <= b < 256) l ->
  map (fun b => Z.land b 255) (map (fun b => if 128 <=? b then b - 256 else b) l)
  = l.
Proof.
  induction 1 as [|b l Hb _ IH]; cbn [map]; [reflexivity|].
  rewrite IH. f_equal.
  destruct (Z.leb_spec 128 b);
    [apply land_255_signed | apply land_255_unsigned]; lia.
Qed.

(** The bytes that [createKeyInfoContent] encodes. *)
Lemma toByteArray_unsigned (n : Z) :
  0 < n ->
  map (fun b => Z.land b 255) (toByteArray n)
  = match bytesBE n with
    | [] => [0]
    | b :: _ => if 128 <=? b then 0 :: bytesBE n else bytesBE n
    end.
Proof.
  intros Hn. destruct (bytesBE_minimal n Hn) as (_ & Hr & b & rest & E & Hb).
  unfold toByteArray. rewrite E in *.
  destruct (128 <=? b); apply unsigned_of_signed; [constructor; [lia|] |];
    exact Hr.
Qed.

Lemma includes_cons (p : string) (c : ascii) (s : string) :
  includes p s = true -> includes p (String c s) = true.
Proof. intros H. cbn [includes]. rewrite H. apply orb_true_r. Qed.

Lemma includes_app_r (p a s : string) :
  includes p s = true -> includes p (a ++ s) = true.
Proof.
  intros H. induction a as [|c a IH]; [exact H|].
  cbn [append]. apply includes_cons. exact IH.
Qed.

Lemma startsWith_app (p s : string) : startsWith p (p ++ s) = true.
Proof.
  induction p as [|c p IH]; cbn [append startsWith]; [reflexivity|].
  rewrite Ascii.eqb_refl, IH. reflexivity.
Qed.

Lemma includes_startsWith (p s : string) :
  startsWith p s = true -> includes p s = true.
Proof. destruct s; cbn [includes]; intros ->; reflexivity. Qed.

Lemma includes_mid (a p b : string) : includes p (a ++ p ++ b) = true.
Proof.
  apply includes_app_r, includes_startsWith, startsWith_app.
Qed.

(** X14: for every RSA modulus [n > 0] whose leading byte has its top bit
    set, as in every key of 1024 or 2048 bits, the Modulus that
    [SRIXmlSigner.createKeyInfoContent] writes is the base64 text of a zero
    byte followed by the minimal encoding of [n]; when the top bit is clear
    it is the base64 text of the minimal encoding. *)
Theorem createKeyInfoContent_modulus (keyInfoId certBase64 : string) (n : Z) :
  0 < n ->
  forall b rest, bytesBE n = b :: rest ->
  includes
    ("<ds:Modulus>" ++ nl ++
     wrapLines 76
       (encode64 (if 128 <=? b then 0 :: bytesBE n else bytesBE n)) ++
     nl ++ "</ds:Modulus>")
    (SRIXmlSigner.createKeyInfoContent keyInfoId certBase64 (Some n))
  = true.
Proof.
  intros Hn b rest E.
  assert (SRIXmlSigner.createKeyInfoContent keyInfoId certBase64 (Some n)
          = SRIXmlSigner.keyInfoBeforeModulus keyInfoId
              (wrapLines 76 certBase64) ++
            ("<ds:Modulus>" ++ nl ++
             wrapLines 76
               (encode64 (if 128 <=? b then 0 :: bytesBE n else bytesBE n))
             ++ nl ++ "</ds:Modulus>") ++
            SRIXmlSigner.keyInfoAfterModulus) as ->.
  { unfold SRIXmlSigner.createKeyInfoContent,
      SRIXmlSigner.keyInfoBeforeModulus, SRIXmlSigner.keyInfoAfterModulus.
    rewrite (toByteArray_unsigned n Hn), E.
    rewrite !append_assoc. reflexivity. }
  apply includes_mid.
Qed.

Lemma createKeyInfoContent_modulus_witness :
  includes
    ("<ds:Modulus>" ++ nl ++
     wrapLines 76
       (encode64 (if 128 <=? 236 then 0 :: bytesBE 60491 else bytesBE 60491))
     ++ nl ++ "</ds:Modulus>")
    (SRIXmlSigner.createKeyInfoContent "Certificate1" "MIIC" (Some 60491))
  = true.
Proof.
  apply (createKeyInfoContent_modulus "Certificate1" "MIIC" 60491
           ltac:(lia) 236 [75]).
  reflexivity.
Defined.


(** X15: a Reference built by [createReference] never has an empty
    [ds:Transforms] element: it has none at all unless it is the enveloped
    reference or its type is the SignedProperties type, and then the element
    holds exactly one transform; its digest, Id and URI are the ones
    given. *)
Theorem createReference_transforms (id uri digestValue : string)
    (isEnveloped : bool) (type : option string) :
  let r := XAdESSignatureService.createReference id uri digestValue
             isEnveloped type in
  transformsOf r
  = (if isEnveloped
     then Some [Some XAdESSignatureService.ENVELOPED_SIGNATURE]
     else match type with
          | Some t =>
              if String.eqb t XAdESSignatureService.TYPE_SIGNED_PROPERTIES
              then Some [Some XAdESSignatureService.CANONICALIZATION_METHOD]
              else None
          | None => None
          end) /\
  transformsOf r <> Some [] /\
  digestOf r = [digestValue] /\
  getAttribute "Id" r = Some id /\
  getAttribute "URI" r = Some uri.
Proof.
  cbv zeta.
  assert (digestOf (XAdESSignatureService.createReference id uri digestValue
                      isEnveloped type) = [digestValue]) as Hd.
  { unfold digestOf, XAdESSignatureService.createReference.
    destruct isEnveloped;
      [|destruct type as [t|];
        [destruct (String.eqb t
                     XAdESSignatureService.TYPE_SIGNED_PROPERTIES)|]];
      cbn -[textOf XAdESSignatureService.textContent];
      unfold XAdESSignatureService.ds; rewrite textOf_textContent;
      reflexivity. }
  assert (getAttribute "Id"
            (XAdESSignatureService.createReference id uri digestValue
               isEnveloped type) = Some id /\
          getAttribute "URI"
            (XAdESSignatureService.createReference id uri digestValue
               isEnveloped type) = Some uri) as Ha.
  { unfold XAdESSignatureService.createReference.
    destruct isEnveloped;
      (destruct type as [t|];
       [destruct (String.eqb t EmptyString);
        destruct (String.eqb t
                    XAdESSignatureService.TYPE_SIGNED_PROPERTIES)|]);
      split; reflexivity. }
  assert (transformsOf
            (XAdESSignatureService.createReference id uri digestValue
               isEnveloped type)
          = (if isEnveloped
             then Some [Some XAdESSignatureService.ENVELOPED_SIGNATURE]
             else match type with
                  | Some t =>
                      if String.eqb t
                           XAdESSignatureService.TYPE_SIGNED_PROPERTIES
                      then Some
                             [Some
                                XAdESSignatureService.CANONICALIZATION_METHOD]
                      else None
                  | None => None
                  end)) as Ht.
  { unfold XAdESSignatureService.createReference.
    destruct isEnveloped;
      [|destruct type as [t|];
        [destruct (String.eqb t
                     XAdESSignatureService.TYPE_SIGNED_PROPERTIES)|]];
      reflexivity. }
  split; [exact Ht|]. split; [|split; [exact Hd | exact Ha]].
  rewrite Ht. destruct isEnveloped; [discriminate|].
  destruct type as [t|]; [|discriminate].
  destruct (String.eqb t XAdESSignatureService.TYPE_SIGNED_PROPERTIES);
    discriminate.
Qed.

Lemma digitIn_hexDigit (d : Z) :
  0 <= d < 16 -> digitIn 16 (hexDigit d) = Some d.
Proof.
  intros Hd.
  assert (d = 0 \/ d = 1 \/ d = 2 \/ d = 3 \/ d = 4 \/ d = 5 \/ d = 6 \/
          d = 7 \/ d = 8 \/ d = 9 \/ d = 10 \/ d = 11 \/ d = 12 \/ d = 13 \/
          d = 14 \/ d = 15) as Hc by lia.
  repeat destruct Hc as [-> | Hc]; try subst d; reflexivity.
Qed.

Lemma bufferFromHex_pair (x y : Z) (rest : string) :
  0 <= x < 16 -> 0 <= y < 16 ->
  bufferFromHex (String (hexDigit x) (String (hexDigit y) rest))
  = (x * 16 + y) :: bufferFromHex rest.
Proof.
  intros Hx Hy. cbn [bufferFromHex].
  rewrite (digitIn_hexDigit x Hx), (digitIn_hexDigit y Hy). reflexivity.
Qed.

(** The hexadecimal digits of [n], padded to an even number, decode to the
    big-endian bytes of [n]. *)
Lemma hex_bytes (fb : nat) :
  forall fh n acc accb,
  0 < n -> n < 2 ^ Z.of_nat fb -> n < 2 ^ Z.of_nat fh ->
  Nat.modulo (String.length acc) 2 = 0%nat ->
  bufferFromHex acc = accb ->
  bufferFromHex (evenHex (hexFuel fh n acc)) = bytesFuel fb n accb.
Proof.
  induction fb as [|fb IH]; intros fh n acc accb Hn Hfb Hfh Hacc Hbuf;
    [cbn in Hfb; lia|].
  cbn [bytesFuel]. destruct (Z.leb_spec n 0) as [?|_]; [lia|].
  rewrite pow2_succ in Hfb.
  destruct fh as [|fh]; [cbn in Hfh; lia|].
  rewrite pow2_succ in Hfh.
  cbn [hexFuel].
  destruct (Z.ltb_spec n 16) as [H16|H16].
  - (* one hexadecimal digit *)
    rewrite Z.mod_small by lia.
    rewrite (Z.div_small n 256), (Z.mod_small n 256), bytesFuel_zero by lia.
    unfold evenHex. cbn [String.length].
    replace (Nat.modulo (S (String.length acc)) 2) with 1%nat
      by (pose proof (Nat.div_mod_eq (String.length acc) 2);
          pose proof (Nat.div_mod_eq (S (String.length acc)) 2);
          pose proof (Nat.mod_upper_bound (S (String.length acc)) 2
                        ltac:(lia)); lia).
    cbn [Nat.eqb negb append].
    change "0"%char with (hexDigit 0).
    rewrite bufferFromHex_pair by lia. rewrite Hbuf. f_equal.
  - destruct fh as [|fh]; [cbn in Hfh; lia|].
    rewrite pow2_succ in Hfh. cbn [hexFuel].
    assert (n / 16 / 16 = n / 256) as E256
      by (rewrite Z.div_div by lia; reflexivity).
    assert (((n / 16) mod 16) * 16 + n mod 16 = n mod 256) as Emod.
    { pose proof (Z.div_mod n 16 ltac:(lia)).
      pose proof (Z.div_mod (n / 16) 16 ltac:(lia)).
      pose proof (Z.mod_pos_bound n 16 ltac:(lia)).
      pose proof (Z.mod_pos_bound (n / 16) 16 ltac:(lia)).
      apply Z.mod_unique_pos with (q := n / 16 / 16); lia. }
    pose proof (Z.mod_pos_bound n 16 ltac:(lia)) as B0.
    pose proof (Z.mod_pos_bound (n / 16) 16 ltac:(lia)) as B1.
    set (acc' := String (hexDigit ((n / 16) mod 16))
                   (String (hexDigit (n mod 16)) acc)).
    assert (Nat.modulo (String.length acc') 2 = 0%nat) as Hacc'.
    { subst acc'. cbn [String.length].
      pose proof (Nat.div_mod_eq (String.length acc) 2).
      pose proof (Nat.div_mod_eq (S (S (String.length acc))) 2).
      pose proof (Nat.mod_upper_bound (S (S (String.length acc))) 2
                    ltac:(lia)). lia. }
    assert (bufferFromHex acc' = n mod 256 :: accb) as Hbuf'.
    { subst acc'. rewrite bufferFromHex_pair by lia.
      rewrite Hbuf, Emod. reflexivity. }
    destruct (Z.ltb_spec (n / 16) 16) as [H256|H256].
    + (* two hexadecimal digits *)
      fold acc'.
      assert (n / 256 = 0) as ->.
      { apply Z.div_small. pose proof (Z.div_mod n 16 ltac:(lia)). lia. }
      rewrite bytesFuel_zero. unfold evenHex. rewrite Hacc'.
      cbn [Nat.eqb negb]. exact Hbuf'.
    + (* more: two digits make one byte *)
      fold acc'. rewrite E256.
      apply IH; try assumption.
      * apply Z.div_str_pos. pose proof (Z.div_mod n 16 ltac:(lia)). lia.
      * apply Z.div_lt_upper_bound; lia.
      * apply Z.div_lt_upper_bound; lia.
Qed.

(** X16: for every public exponent [e > 0] the Exponent element built by
    [XAdESSignatureService.createRSAKeyValue] holds the base64 text of the
    minimal big-endian encoding of [e]: bytes whose value is [e] and whose
    first byte is not zero; and the hexadecimal text of a modulus with an
    even number of digits decodes to the minimal encoding of the modulus. *)
Theorem createRSAKeyValue_minimal_encoding (n e : Z) :
  0 < e ->
  map textOf
    (childElements "ds:Exponent"
       (XAdESSignatureService.createRSAKeyValue n e))
  = [encode64 (bytesBE e)] /\
  valueBE (bytesBE e) = e /\
  (exists b rest, bytesBE e = b :: rest /\ 0 < b < 256) /\
  (0 < n -> Nat.modulo (String.length (toHex n)) 2 = 0%nat ->
   bufferFromHex (toHex n) = bytesBE n).
Proof.
  intros He.
  destruct (bytesBE_minimal e He) as (Hv & _ & Hh).
  split; [|split; [exact Hv | split; [exact Hh|]]].
  - assert (map textOf
              (childElements "ds:Exponent"
                 (XAdESSignatureService.createRSAKeyValue n e))
            = [encode64 (bufferFromHex (evenHex (toHex e)))]) as ->.
    { unfold XAdESSignatureService.createRSAKeyValue.
      cbn -[textOf XAdESSignatureService.textContent toHex bufferFromHex
            encode64 matchRuns joinLines Nat.modulo].
      unfold XAdESSignatureService.ds. rewrite textOf_textContent.
      reflexivity. }
    unfold toHex.
    rewrite (hex_bytes (S (Z.to_nat (Z.log2 e))) _ e EmptyString []);
      try reflexivity; try assumption; apply log2_fuel; exact He.
  - intros Hn Heven.
    pose proof (hex_bytes (S (Z.to_nat (Z.log2 n)))
                  (S (Z.to_nat (Z.log2 n))) n EmptyString [] Hn
                  (log2_fuel n Hn) (log2_fuel n Hn) eq_refl eq_refl) as H.
    unfold evenHex in H. fold (toHex n) in H. rewrite Heven in H.
    exact H.
Qed.

Lemma createRSAKeyValue_minimal_encoding_witness :
  map textOf
    (childElements "ds:Exponent"
       (XAdESSignatureService.createRSAKeyValue 60491 65537))
  = [encode64 (bytesBE 65537)] /\
  valueBE (bytesBE 65537) = 65537 /\
  (exists b rest, bytesBE 65537 = b :: rest /\ 0 < b < 256) /\
  (0 < 60491 -> Nat.modulo (String.length (toHex 60491)) 2 = 0%nat ->
   bufferFromHex (toHex 60491) = bytesBE 60491).
Proof.
  apply (createRSAKeyValue_minimal_encoding 60491 65537). lia.
Defined.

End EncodingExtra.
